(** * platform-input-support: manifest reporting, GCS helper and settings

    A shallow embedding of the Python sources

      - [platform_input_support/manifest/step_reporter.py]
      - [platform_input_support/plugins/go.py]
      - [platform_input_support/helpers/google.py]
      - [pis/config/models.py]

    Mutable objects are modelled by explicit state passing: a method that
    mutates [self] returns the new [self]; collaborators that are shared
    by reference (the abort [Event], the loguru sink, the manifest
    service) are threaded through and returned. *)

From Stdlib Require Import Ascii Bool ZArith Lia.
From stdpp Require Import base gmap strings list.

(** ** Python [str] operations used by the sources *)

Module PyStr.

(** [s.startswith(p)] *)
Fixpoint startswith (p s : string) : bool :=
  match p, s with
  | EmptyString, _ => true
  | String _ _, EmptyString => false
  | String a p', String b s' => Ascii.eqb a b && startswith p' s'
  end.

(** [sub in s] *)
Fixpoint contains (sub s : string) : bool :=
  startswith sub s ||
  match s with
  | EmptyString => false
  | String _ s' => contains sub s'
  end.

(** [s[n:]] *)
Fixpoint drop (n : nat) (s : string) : string :=
  match n, s with
  | O, _ => s
  | S _, EmptyString => EmptyString
  | S n', String _ s' => drop n' s'
  end.

(** The scan of [s.replace(old, new)] for a non-empty [old]: left to
    right, an occurrence of [old] at the cursor is replaced by [new] and
    the cursor jumps past it. [skip] counts the characters of the
    occurrence just replaced that the cursor still has to pass. *)
Fixpoint replace_scan (old new : string) (skip : nat) (s : string) : string :=
  match s with
  | EmptyString => EmptyString
  | String c s' =>
      match skip with
      | S k => replace_scan old new k s'
      | O =>
          if startswith old s
          then new +:+ replace_scan old new (String.length old - 1) s'
          else String c (replace_scan old new 0 s')
      end
  end.

(** [s.replace(old, new)]. For the empty [old] Python puts [new] before
    every character and at the end. *)
Definition replace (old new s : string) : string :=
  match old with
  | EmptyString =>
      (fix between (s : string) : string :=
         match s with
         | EmptyString => new
         | String c s' => new +:+ String c (between s')
         end) s
  | String _ _ => replace_scan old new 0 s
  end.

(** The first occurrence of [sep] in [s]: the text before it and the
    text after it. *)
Fixpoint partition (sep s : string) : option (string * string) :=
  if startswith sep s then Some (EmptyString, drop (String.length sep) s)
  else
    match s with
    | EmptyString => None
    | String c s' =>
        match partition sep s' with
        | Some (before, after) => Some (String c before, after)
        | None => None
        end
    end.

(** [s.split(sep, 1)] for a non-empty [sep] (Python raises [ValueError]
    on an empty separator; the only call site passes ['/']). *)
Definition split1 (sep s : string) : list string :=
  match partition sep s with
  | Some (before, after) => [before; after]
  | None => [s]
  end.

End PyStr.

(** ** loguru: the log sink *)

Module Loguru.

Inductive Level := DEBUG | INFO | ERROR | CRITICAL.

Record Message := { level : Level; text : string }.

(** The sink collects the messages in the order they are emitted. *)
Definition Sink := list Message.

Definition emit (l : Level) (msg : string) (sink : Sink) : Sink :=
  sink ++ [{| level := l; text := msg |}].

End Loguru.

(** ** manifest/models.py *)

Module Models.

(** Modelled from the spec: [manifest/models.py] is not among the
    sources. The members of [Status] are the statuses the data model
    enumerates for task records (the step statuses are among them). *)
Inductive Status :=
| PENDING | RUNNING | COMPLETED | VALIDATION_PASSED | VALIDATION_FAILED | FAILED.

#[global] Instance Status_eq_dec : EqDecision Status.
Proof. solve_decision. Defined.

(** Modelled from the spec: [Status.value], absent with [models.py]; the
    value of a member is taken to be its enumerated name. No property
    below depends on the choice. *)
Definition Status_value (s : Status) : string :=
  match s with
  | PENDING => "PENDING"
  | RUNNING => "RUNNING"
  | COMPLETED => "COMPLETED"
  | VALIDATION_PASSED => "VALIDATION_PASSED"
  | VALIDATION_FAILED => "VALIDATION_FAILED"
  | FAILED => "FAILED"
  end.

(** Modelled from the spec: the task record of the data model. *)
Record TaskManifest := {
  task_name : string;
  task_status : Status;
  destination_path : string;
  checksum : option string;
  message : string
}.

(** Modelled from the spec: the step manifest of the data model. *)
Record StepManifest := {
  step_name : string;
  step_status : Status;
  tasks : list TaskManifest;
  log : list string
}.

(** [StepManifest(name=...)]: a pending step with no task and no log. *)
Definition StepManifest_new (name : string) : StepManifest :=
  {| step_name := name; step_status := PENDING; tasks := []; log := [] |}.

Definition set_status (s : Status) (m : StepManifest) : StepManifest :=
  {| step_name := step_name m; step_status := s; tasks := tasks m; log := log m |}.

Definition append_task (t : TaskManifest) (m : StepManifest) : StepManifest :=
  {| step_name := step_name m; step_status := step_status m;
     tasks := tasks m ++ [t]; log := log m |}.

Definition append_log (line : string) (m : StepManifest) : StepManifest :=
  {| step_name := step_name m; step_status := step_status m;
     tasks := tasks m; log := log m ++ [line] |}.

End Models.

(** ** threading.Event *)

Module Threading.

Record Event := { flag : bool }.

Definition Event_new : Event := {| flag := false |}.
Definition set (e : Event) : Event := {| flag := true |}.
Definition is_set (e : Event) : bool := flag e.

End Threading.

(** ** manifest/step_reporter.py *)

Module StepReporter.
Import Models Threading.

Record StepReporter := { name : string; _manifest : StepManifest }.

(** [__init__] *)
Definition init (name : string) : StepReporter :=
  {| name := name; _manifest := StepManifest_new name |}.

Definition with_manifest (self : StepReporter) (m : StepManifest) : StepReporter :=
  {| name := name self; _manifest := m |}.

(** [status in [Status.COMPLETED, Status.VALIDATION_PASSED]] *)
Definition passing (s : Status) : bool :=
  bool_decide (s ∈ [COMPLETED; VALIDATION_PASSED]).

(** A record passes when its status is COMPLETED or VALIDATION_PASSED. *)
Abbreviation passes t := (task_status t ∈ [COMPLETED; VALIDATION_PASSED]).

(** [add_task_report]: the reporter and the shared abort event after the
    call. *)
Definition add_task_report (self : StepReporter) (task_manifest : TaskManifest)
    (abort : Event) : StepReporter * Event :=
  let self := with_manifest self (append_task task_manifest (_manifest self)) in
  if negb (passing (task_status task_manifest))
  then (self, set abort)
  else (self, abort).

(** A run of [add_task_report] calls, one per record, on the same
    reporter and the same event. *)
Definition add_task_reports (self : StepReporter) (records : list TaskManifest)
    (abort : Event) : StepReporter * Event :=
  fold_left (fun st r => add_task_report (fst st) r (snd st)) records (self, abort).

(** The f-string logged for a task by [complete]. *)
Definition task_line (task : TaskManifest) : string :=
  "task `" +:+ task_name task +:+ "` " +:+ Status_value (task_status task).

(** The body of the loop of [complete]. *)
Definition complete_step (m : StepManifest) (task : TaskManifest) : StepManifest :=
  let m := append_log (task_line task) m in
  if negb (passing (task_status task)) then set_status FAILED m else m.

(** [complete] *)
Definition complete (self : StepReporter) : StepReporter :=
  let m := set_status COMPLETED (_manifest self) in
  with_manifest self (fold_left complete_step (tasks m) m).

(** An exception object, as far as [fail] looks at it: its text
    [str(error)] and its truth value [bool(error)]. An exception is truthy
    unless its class defines [__bool__] or [__len__] to say otherwise. *)
Record Exception := { str : string; truthy : bool }.

(** [if error:] for [error: Exception | None]: [None] is falsy, an
    exception has the truth value of the object. *)
Definition is_true (error : option Exception) : bool :=
  match error with
  | Some e => truthy e
  | None => false
  end.

Definition fail_message (self : StepReporter) (reason : string) : string :=
  "step `" +:+ name self +:+ "` failed: " +:+ reason.

(** [fail]: the reporter and the loguru sink after the call. *)
Definition fail (self : StepReporter) (reason : string) (error : option Exception)
    (sink : Loguru.Sink) : StepReporter * Loguru.Sink :=
  let m := set_status FAILED (_manifest self) in
  let msg := fail_message self reason in
  let m := append_log msg m in
  let sink := Loguru.emit Loguru.CRITICAL msg sink in
  let m := match error with
           | Some e => if truthy e then append_log (str e) m else m
           | None => m
           end in
  (with_manifest self m, sink).

End StepReporter.


(** ** Exceptions and the effects of the helper code

    The code below raises, catches, logs and calls [sys.exit]. A
    computation takes the loguru sink and gives back the value it returns
    or the exception it raises, with the sink as it left it. *)

Module Py.

Inductive exn :=
| SystemExit (code : Z)                (* raised by [sys.exit(code)] *)
| DefaultCredentialsError (msg : string)
| NotFound (msg : string)              (* a subclass of [GoogleCloudError] *)
| GoogleCloudError (msg : string)      (* any other cloud error *)
| GoogleHelperError (msg : string)
| KeyError (key : string)
| AttributeError (attr : string)
| OtherError (msg : string).

Inductive result (A : Type) :=
| Ok (a : A)
| Raise (e : exn).

Arguments Ok {A} a.
Arguments Raise {A} e.

Definition M (A : Type) : Type := Loguru.Sink -> result A * Loguru.Sink.

Definition ret {A} (a : A) : M A := fun sink => (Ok a, sink).

Definition bind {A B} (m : M A) (k : A -> M B) : M B :=
  fun sink =>
    match m sink with
    | (Ok a, sink') => k a sink'
    | (Raise e, sink') => (Raise e, sink')
    end.

Definition raise {A} (e : exn) : M A := fun sink => (Raise e, sink).

(** A call into a collaborator that returns or raises and does not log. *)
Definition call {A} (r : result A) : M A := fun sink => (r, sink).

(** [logger.<level>(msg)] *)
Definition logger (l : Loguru.Level) (msg : string) : M unit :=
  fun sink => (Ok tt, Loguru.emit l msg sink).

(** [sys.exit(code)] *)
Definition sys_exit {A} (code : Z) : M A := raise (SystemExit code).

(** [try: body except ...]: [handler e] is the clause that catches [e],
    if one does. *)
Definition try_except {A} (body : M A) (handler : exn -> option (M A)) : M A :=
  fun sink =>
    match body sink with
    | (Ok a, sink') => (Ok a, sink')
    | (Raise e, sink') =>
        match handler e with
        | Some h => h sink'
        | None => (Raise e, sink')
        end
    end.

(** The exit status of the interpreter when a computation run at top
    level ends: [SystemExit(code)] exits with [code], any other uncaught
    exception with 1. *)
Definition exit_status {A} (r : result A) : Z :=
  match r with
  | Ok _ => 0
  | Raise (SystemExit code) => code
  | Raise _ => 1
  end.

(** [isinstance(e, GoogleCloudError)] *)
Definition is_cloud_error (e : exn) : bool :=
  match e with
  | NotFound _ | GoogleCloudError _ => true
  | _ => false
  end.

End Py.

Notation "'let!' x ':=' m 'in' k" := (Py.bind m (fun x => k))
  (at level 10, x name, m at level 100, k at level 200).

(** ** plugins/go.py, with the manifest service it calls *)

Module GO.
Import Models Py.

(** The step object of the manifest service, with the attributes
    [process] reads and writes. [ManifestStatus] is taken to be the
    enumeration [Status]. *)
Record ManifestStep := {
  resources : list TaskManifest;
  status_completion : Status;
  msg_completion : string
}.

(** The manifest service: the steps of the run by name. *)
Record ManifestService := { steps : gmap string ManifestStep }.

(** Modelled from the spec: [get_step] of the manifest service, which is
    not among the sources: the step declared under [name], an error if
    none was. *)
Definition get_step (svc : ManifestService) (name : string) : result ManifestStep :=
  match steps svc !! name with
  | Some step => Ok step
  | None => Raise (KeyError name)
  end.

(** Modelled from the spec: [are_all_resources_complete] of the manifest
    service, which is not among the sources: true iff every record's
    status is COMPLETED or VALIDATION_PASSED. *)
Definition are_all_resources_complete (records : list TaskManifest) : bool :=
  forallb (fun r => bool_decide (task_status r ∈ [COMPLETED; VALIDATION_PASSED])) records.

(** [output]: the destination information object. *)
Record Output := { prod_dir : string }.

Section Process.

(** The step configuration object. *)
Variable Conf : Type.

(** [Downloads(prod_dir).exec(conf)]: the records of the resources it
    fetched. *)
Variable Downloads_exec : string -> Conf -> list TaskManifest.

(** [compute_checksums] of the manifest service: the records as it leaves
    them. *)
Variable compute_checksums : list TaskManifest -> list TaskManifest.

Definition step_name : string := "GO".

(** The step is shared with the service: the writes of [process] are
    writes to the service's entry for it. *)
Definition store (svc : ManifestService) (step : ManifestStep) : ManifestService :=
  {| steps := <[step_name := step]> (steps svc) |}.

(** The two [if] statements of [process], which decide the completion
    status and message. *)
Definition finish (manifest_step : ManifestStep) : ManifestStep :=
  let manifest_step :=
    if negb (are_all_resources_complete (resources manifest_step))
    then {| resources := resources manifest_step;
            status_completion := FAILED;
            msg_completion := "COULD NOT retrieve all the resources" |}
    else manifest_step in
  if negb (bool_decide (status_completion manifest_step = FAILED))
  then {| resources := resources manifest_step;
          status_completion := COMPLETED;
          msg_completion := "The step has completed its execution" |}
  else manifest_step.

(** [GO.process] *)
Definition process (conf : Conf) (output : Output) (svc : ManifestService)
    : M ManifestService :=
  let! _ := logger Loguru.INFO "[STEP] BEGIN, GO" in
  let! manifest_step := call (get_step svc step_name) in
  let manifest_step :=
    {| resources := resources manifest_step ++ Downloads_exec (prod_dir output) conf;
       status_completion := status_completion manifest_step;
       msg_completion := msg_completion manifest_step |} in
  let manifest_step :=
    {| resources := compute_checksums (resources manifest_step);
       status_completion := status_completion manifest_step;
       msg_completion := msg_completion manifest_step |} in
  let manifest_step := finish manifest_step in
  let! _ := logger Loguru.INFO "[STEP] END, GO" in
  ret (store svc manifest_step).

End Process.

End GO.

(** ** helpers/google.py *)

Module Google.
Import Py.

(** The objects of [google.cloud.storage] as far as the helper uses
    them. *)
Record Blob := { blob_name : string }.

Record Bucket := {
  (** [list(bucket.list_blobs(prefix=prefix))] *)
  list_blobs : option string -> result (list Blob)
}.

Record Client := {
  (** [client.get_bucket(bucket_name)] *)
  get_bucket : string -> result Bucket
}.

(** What the constructor finds around it. *)
Record Env := {
  (** [auth.default()]: the project id, or the exception raised. *)
  auth_default : result string;
  (** [storage.Client()] *)
  storage_Client : result Client;
  (** [config.gcp_bucket_path] *)
  gcp_bucket_path : option string
}.

Record GoogleHelper := { client : Client }.

(** [_parse_url] *)
Definition _parse_url (url : string) : string * option string :=
  let url_parts := PyStr.split1 "/" (PyStr.replace "gs://" "" url) in
  let bucket_name := nth 0 url_parts "" in
  let file_path := if 1 <? length url_parts then Some (nth 1 url_parts "") else None in
  (bucket_name, file_path).

(** [bucket_exists] *)
Definition bucket_exists (self : GoogleHelper) (url : string) : M bool :=
  let '(bucket_name, _) := _parse_url url in
  let! _ := logger Loguru.DEBUG ("checking if bucket exists: " +:+ bucket_name) in
  try_except
    (let! _ := call (get_bucket (client self) bucket_name) in
     ret true)
    (fun e =>
       match e with
       | NotFound _ =>
           Some (let! _ := logger Loguru.DEBUG ("bucket not found: " +:+ bucket_name) in
                 ret false)
       | GoogleCloudError msg =>
           Some (let! _ := logger Loguru.ERROR ("error checking bucket: " +:+ msg) in
                 ret false)
       | _ => None
       end).

(** [__init__] *)
Definition init (env : Env) : M GoogleHelper :=
  let! _ :=
    try_except
      (let! project_id := call (auth_default env) in
       logger Loguru.DEBUG ("gcp authenticated on project " +:+ project_id))
      (fun e =>
         match e with
         | DefaultCredentialsError msg =>
             Some (let! _ := logger Loguru.CRITICAL ("error : " +:+ msg) in
                   sys_exit 1)
         | _ => None
         end) in
  let! client := call (storage_Client env) in
  let self := {| client := client |} in
  let! _ :=
    try_except
      (match gcp_bucket_path env with
       | None =>
           let! _ := logger Loguru.CRITICAL "missing setting: gcp_bucket_path" in
           sys_exit 1
       | Some path =>
           let! found := bucket_exists self path in
           if negb found
           then let! _ := logger Loguru.CRITICAL ("gcp bucket does not exist: " +:+ path) in
                sys_exit 1
           else ret tt
       end)
      (fun e =>
         match e with
         | GoogleHelperError msg =>
             Some (let! _ := logger Loguru.CRITICAL ("error checking gcp bucket: " +:+ msg) in
                   sys_exit 1)
         | _ => None
         end) in
  ret self.

(** The f-string of [list]: the URL given back for a blob. *)
Definition blob_url (bucket_name : string) (blob : Blob) : string :=
  "gs://" +:+ bucket_name +:+ "/" +:+ blob_name blob.

(** The two comprehensions' filter of [list]: the [include] branch is
    tested first, the [exclude] branch is its [elif]. *)
Definition select (include exclude : option string) (file_list : list Blob) : list Blob :=
  match include with
  | Some inc => filter (fun blob => PyStr.contains inc (blob_name blob) = true) file_list
  | None =>
      match exclude with
      | Some exc => filter (fun blob => PyStr.contains exc (blob_name blob) = false) file_list
      | None => file_list
      end
  end.

(** [list] *)
Definition list (self : GoogleHelper) (url : string) (include exclude : option string)
    : M (list string) :=
  let '(bucket_name, prefix) := _parse_url url in
  let! fetched :=
    try_except
      (let! bucket := call (get_bucket (client self) bucket_name) in
       let! file_list := call (list_blobs bucket prefix) in
       ret (Some file_list))
      (fun e =>
         match e with
         | NotFound _ =>
             Some (let! _ := logger Loguru.ERROR ("bucket not found: " +:+ bucket_name) in
                   ret None)
         | GoogleCloudError msg =>
             Some (let! _ := logger Loguru.ERROR ("error listing gs objects: " +:+ msg) in
                   ret None)
         | _ => None
         end) in
  match fetched with
  | None => ret []
  | Some file_list =>
      let file_list := select include exclude file_list in
      ret (map (blob_url bucket_name) file_list)
  end.

(** The environments the constructor is not meant to survive: no default
    credentials; or, once authenticated with a client at hand, no
    [gcp_bucket_path] setting, or a configured bucket whose lookup fails
    with a cloud error ([NotFound] when it does not exist). *)
Definition setup_failure (env : Env) : Prop :=
  (exists msg, auth_default env = Raise (DefaultCredentialsError msg)) \/
  (exists project_id client,
     auth_default env = Ok project_id /\
     storage_Client env = Ok client /\
     (gcp_bucket_path env = None \/
      exists path e,
        gcp_bucket_path env = Some path /\
        get_bucket client (fst (_parse_url path)) = Raise e /\
        is_cloud_error e = true)).

End Google.

(** ** config/models.py *)

Module Config.
Import Py.

(** The values a settings field holds. *)
Inductive Value :=
| VNone
| VStr (s : string)
| VInt (n : Z)
| VPath (p : string).

(** A pydantic model instance: its attributes by name, and the names of
    the fields that were set explicitly. *)
Record BaseModel := {
  attrs : gmap string Value;
  model_fields_set : gset string
}.

(** The invariant pydantic keeps on a model: every name that counts as
    set is an attribute of it. *)
Definition well_formed (obj : BaseModel) : Prop :=
  forall name, name ∈ model_fields_set obj -> is_Some (attrs obj !! name).

(** [Settings.model_fields], in declaration order. *)
Definition model_fields : list string :=
  ["step"; "config_file"; "work_dir"; "remote_uri"; "pool"; "log_level"].

(** [Settings()]: every field at its default, none set explicitly. *)
Definition Settings_new : BaseModel :=
  {| attrs := {[ "step" := VStr "";
                 "config_file" := VPath "config.yaml";
                 "work_dir" := VPath "./output";
                 "remote_uri" := VNone;
                 "pool" := VInt 5;
                 "log_level" := VStr "INFO" ]};
     model_fields_set := ∅ |}.

(** [getattr(obj, name)] *)
Definition getattr (obj : BaseModel) (name : string) : result Value :=
  match attrs obj !! name with
  | Some v => Ok v
  | None => Raise (AttributeError name)
  end.

(** [setattr(obj, name, value)] on a model without assignment validation:
    the value is stored and the name counts as set from then on. *)
Definition setattr (obj : BaseModel) (name : string) (value : Value) : BaseModel :=
  {| attrs := <[name := value]> (attrs obj);
     model_fields_set := {[name]} ∪ model_fields_set obj |}.

(** The loop of [merge_model] over the field names still to visit. *)
Fixpoint merge_fields (names : list string) (self incoming : BaseModel) : result BaseModel :=
  match names with
  | [] => Ok self
  | field_name :: names' =>
      if bool_decide (field_name ∈ model_fields_set incoming)
      then
        match getattr incoming field_name with
        | Ok field_value => merge_fields names' (setattr self field_name field_value) incoming
        | Raise e => Raise e
        end
      else merge_fields names' self incoming
  end.

(** [Settings.merge_model] *)
Definition merge_model (self incoming : BaseModel) : result BaseModel :=
  merge_fields model_fields self incoming.

End Config.

(** ** Runs of reporter calls

    The three methods of the reporter as calls, and a run of calls on one
    reporter with the abort event and the loguru sink it shares. *)

Module ReporterRun.
Import Models Threading StepReporter.

Inductive Call :=
| AddTaskReport (task_manifest : TaskManifest)
| Complete
| Fail (reason : string) (error : option Exception).

Record World := {
  reporter : StepReporter;
  abort : Event;
  sink : Loguru.Sink
}.

(** A reporter just constructed, an event nobody has set, an empty sink. *)
Definition fresh (name : string) : World :=
  {| reporter := init name; abort := Event_new; sink := [] |}.

Definition call (w : World) (c : Call) : World :=
  match c with
  | AddTaskReport task_manifest =>
      let after := add_task_report (reporter w) task_manifest (abort w) in
      {| reporter := fst after; abort := snd after; sink := sink w |}
  | Complete =>
      {| reporter := complete (reporter w); abort := abort w; sink := sink w |}
  | Fail reason error =>
      let after := fail (reporter w) reason error (sink w) in
      {| reporter := fst after; abort := abort w; sink := snd after |}
  end.

Definition run (w : World) (calls : list Call) : World := fold_left call calls w.

(** The records a run hands to [add_task_report], in order. *)
Definition added (calls : list Call) : list TaskManifest :=
  omap (fun c => match c with AddTaskReport t => Some t | _ => None end) calls.

End ReporterRun.

(** ** helpers/google.py: the methods that work on one blob *)

Module GoogleBlobs.
Import Py Google.

Section Blobs.

(** [bucket.blob(file_path).exists()] *)
Variable blob_exists : Bucket -> option string -> result bool.

(** [bucket.blob(file_path).download_to_filename(destination)] *)
Variable download_to_filename : Bucket -> option string -> string -> result unit.

(** [bucket.blob(file_path).upload_from_filename(source)] *)
Variable upload_from_filename : Bucket -> option string -> string -> result unit.

(** [datetime.datetime] *)
Variable Datetime : Type.

(** [blob.reload()] followed by reading [blob.time_created]. *)
Variable reload_time_created : Bucket -> option string -> result (option Datetime).

(** [stat] *)
Definition stat (self : GoogleHelper) (url : string) : M bool :=
  let '(bucket_name, file_path) := _parse_url url in
  let! _ := logger Loguru.DEBUG ("statting url: " +:+ url) in
  try_except
    (let! bucket := call (get_bucket (client self) bucket_name) in
     call (blob_exists bucket file_path))
    (fun e =>
       match e with
       | NotFound _ =>
           Some (let! _ := logger Loguru.DEBUG ("file not found: " +:+ url) in
                 ret false)
       | GoogleCloudError msg =>
           Some (let! _ := logger Loguru.ERROR ("error checking gs object: " +:+ msg) in
                 ret false)
       | _ => None
       end).

(** [download] *)
Definition download (self : GoogleHelper) (url : string) (destination : string) : M unit :=
  let '(bucket_name, file_path) := _parse_url url in
  try_except
    (let! bucket := call (get_bucket (client self) bucket_name) in
     let! _ := call (download_to_filename bucket file_path destination) in
     logger Loguru.DEBUG ("downloaded " +:+ url +:+ " to " +:+ destination))
    (fun e =>
       match e with
       | NotFound _ =>
           Some (logger Loguru.ERROR ("bucket or file not found: " +:+ url))
       | GoogleCloudError msg =>
           Some (logger Loguru.ERROR ("error downloading file: " +:+ msg))
       | _ => None
       end).

(** [upload] *)
Definition upload (self : GoogleHelper) (source : string) (destination : string) : M unit :=
  let '(bucket_name, file_path) := _parse_url destination in
  try_except
    (let! bucket := call (get_bucket (client self) bucket_name) in
     let! _ := call (upload_from_filename bucket file_path source) in
     logger Loguru.DEBUG ("file uploaded: " +:+ destination))
    (fun e =>
       match e with
       | NotFound _ =>
           Some (logger Loguru.ERROR ("bucket not found: " +:+ bucket_name))
       | GoogleCloudError msg =>
           Some (logger Loguru.ERROR ("error uploading file: " +:+ msg))
       | _ => None
       end).

(** [get_creation_date] *)
Definition get_creation_date (self : GoogleHelper) (url : string) : M (option Datetime) :=
  let '(bucket_name, file_path) := _parse_url url in
  try_except
    (let! bucket := call (get_bucket (client self) bucket_name) in
     call (reload_time_created bucket file_path))
    (fun e =>
       match e with
       | NotFound _ =>
           Some (let! _ := logger Loguru.ERROR ("bucket or file not found: " +:+ url) in
                 ret None)
       | GoogleCloudError msg =>
           Some (let! _ := logger Loguru.ERROR ("error getting creation date: " +:+ msg) in
                 ret None)
       | _ => None
       end).

End Blobs.

End GoogleBlobs.

(** ** config/models.py: the validator of remote URIs *)

Module Validators.

(** What the validator does with a URI: it gives it back, or its [assert]
    fails with the message. *)
Inductive Validated :=
| Valid (uri : string)
| AssertionError (msg : string).

(** [remote_uri_is_valid] *)
Definition remote_uri_is_valid (uri : string) : Validated :=
  if PyStr.contains "://" uri
  then Valid uri
  else AssertionError "Remote URI must contain a protocol.".

End Validators.

(** ** Sample values

    Concrete records and reporters on which the properties below are
    exercised. *)

Module Samples.
Import Models Threading.

Definition task (name : string) (status : Status) : TaskManifest :=
  {| task_name := name; task_status := status;
     destination_path := "output/" +:+ name;
     checksum := None; message := "" |}.

(** A reporter that ingested one completed task. *)
Definition one_completed : StepReporter.StepReporter :=
  fst (StepReporter.add_task_report (StepReporter.init "GO")
         (task "go.obo" COMPLETED) Event_new).

(** A reporter that ingested three passing tasks. *)
Definition three_passing : StepReporter.StepReporter :=
  fst (StepReporter.add_task_reports (StepReporter.init "GO")
         [task "go.obo" COMPLETED; task "goa.gaf" VALIDATION_PASSED;
          task "ensembl.tsv" COMPLETED] Event_new).

(** A manifest service whose GO step is already FAILED when the step
    runs, with no resource yet. *)
Definition failed_go_service : GO.ManifestService :=
  {| GO.steps :=
       {[ "GO" := {| GO.resources := [];
                     GO.status_completion := FAILED;
                     GO.msg_completion := "configuration invalid" |} ]} |}.

(** A download that fetches one resource and completes it. *)
Definition one_download (prod_dir : string) (conf : unit) : list TaskManifest :=
  [{| task_name := "go.obo"; task_status := COMPLETED;
      destination_path := prod_dir +:+ "/go.obo";
      checksum := None; message := "" |}].

(** A checksum pass that attaches the same digest to every passing
    record. *)
Definition digest_all (records : list TaskManifest) : list TaskManifest :=
  map (fun r =>
         if bool_decide (task_status r ∈ [COMPLETED; VALIDATION_PASSED])
         then {| task_name := task_name r; task_status := task_status r;
                 destination_path := destination_path r;
                 checksum := Some "d41d8cd9"; message := message r |}
         else r) records.

(** A storage client that knows one bucket, [ot-team], holding three
    blobs; every other lookup is answered [NotFound]. *)
Definition ot_team_bucket : Google.Bucket :=
  {| Google.list_blobs := fun _ =>
       Py.Ok [ {| Google.blob_name := "input/go.obo" |};
               {| Google.blob_name := "input/go.log" |};
               {| Google.blob_name := "manifest.json" |} ] |}.

Definition one_bucket_client : Google.Client :=
  {| Google.get_bucket := fun bucket_name =>
       if String.eqb bucket_name "ot-team" then Py.Ok ot_team_bucket
       else Py.Raise (Py.NotFound ("404 " +:+ bucket_name)) |}.

(** Authenticated, with a client, and configured with a bucket that does
    not exist. *)
Definition missing_bucket_env : Google.Env :=
  {| Google.auth_default := Py.Ok "open-targets";
     Google.storage_Client := Py.Ok one_bucket_client;
     Google.gcp_bucket_path := Some "gs://no-such-bucket/output" |}.

(** A CLI settings model on which only [step] and [pool] were given; the
    other fields hold their defaults and are not in the set. *)
Definition cli_step_and_pool : Config.BaseModel :=
  {| Config.attrs := {[ "step" := Config.VStr "go";
                        "config_file" := Config.VNone;
                        "work_dir" := Config.VNone;
                        "remote_uri" := Config.VNone;
                        "pool" := Config.VInt 8;
                        "log_level" := Config.VNone ]};
     Config.model_fields_set := {[ "step"; "pool" ]} |}.

End Samples.

(** ** os.path *)

Module OsPath.

(** [s.endswith(suffix)] *)
Fixpoint endswith (suffix s : string) : bool :=
  String.eqb suffix s ||
  match s with
  | EmptyString => false
  | String _ s' => endswith suffix s'
  end.

(** [os.path.join(a, *p)] of [posixpath]: a component that starts with
    ['/'] restarts the path; otherwise it is appended, after a ['/']
    unless the path so far is empty or ends with one. *)
Definition join (a : string) (p : list string) : string :=
  fold_left
    (fun path b =>
       if PyStr.startswith "/" b then b
       else if String.eqb path "" || endswith "/" path then path +:+ b
       else path +:+ "/" +:+ b)
    p a.

End OsPath.

(** ** plugins/Homologues.py *)

Module Homologues.
Import Models Py GO.

(** The step works on the step object and the resource records of the
    manifest service, as the GO step does: [path_destination],
    [msg_completion] and [status_completion] of a resource record are the
    fields [destination_path], [message] and [task_status] of the task
    record. *)
Definition with_path_destination (r : TaskManifest) (p : string) : TaskManifest :=
  {| task_name := task_name r; task_status := task_status r;
     destination_path := p; checksum := checksum r; message := message r |}.

Definition with_msg_completion (r : TaskManifest) (msg : string) : TaskManifest :=
  {| task_name := task_name r; task_status := task_status r;
     destination_path := destination_path r; checksum := checksum r;
     message := msg |}.

Definition with_status_completion (r : TaskManifest) (s : Status) : TaskManifest :=
  {| task_name := task_name r; task_status := s;
     destination_path := destination_path r; checksum := checksum r;
     message := message r |}.

(** The [Dict] that [download_species] fills in. *)
Record ResourceStage := {
  uri : string;
  output_filename : string;
  output_dir : string
}.

(** The step configuration; [release] is the text [str(conf.release)],
    the only form in which the step uses it. *)
Record Conf := {
  conf_uri : string;
  release : string;
  path : string;
  jq : string;
  conf_resources : list string
}.

Record Output := { prod_dir : string; staging_dir : string }.

Record CmdConf := { cmd_jq : string }.

(** What a run leaves behind, also when it raises: the outcome, the
    manifest service and the log. The records of the step's [logging]
    logger are kept as level and text. *)
Definition Outcome (A : Type) : Type := result A * ManifestService * Loguru.Sink.

Section Process.

(** [DownloadResource(staging_dir).ftp_download(resource_stage)] *)
Variable ftp_download : string -> ResourceStage -> result TaskManifest.

(** [create_folder(path)] *)
Variable create_folder : string -> result unit.

(** [Utils.check_path_command(cmd, yaml_cmd)] *)
Variable check_path_command : string -> string -> result string.

(** [self.extract_fields_from_json(input_file, conf, output, jq_cmd)]:
    it logs, runs the external filter into a file, and returns the path
    of that file or raises. *)
Variable extract_fields_from_json : string -> Conf -> Output -> string -> M string.

(** [compute_checksums] of the manifest service. *)
Variable compute_checksums : list TaskManifest -> list TaskManifest.

Definition step_name : string := "Homologues".

(** [download_species]; [download] is the [DownloadResource] built on
    [download_dir]. *)
Definition download_species (uri release staging download_dir species : string)
    : result TaskManifest :=
  let protein_uri := uri +:+ species +:+ "/" +:+ species +:+ ".json" in
  let resource_stage :=
    {| uri := protein_uri;
       output_filename := release +:+ "-" +:+ species +:+ ".json";
       output_dir := staging |} in
  ftp_download download_dir resource_stage.

(** The loop of [process] over the species still to fetch; [resources]
    is the list of the step, to which each record is appended as soon as
    it is ready. An exception leaves the loop with the list as it is
    then. *)
Fixpoint fetch_all (conf : Conf) (output : Output) (uri_release jq_cmd : string)
    (species_list : list string) (resources : list TaskManifest)
    (sink : Loguru.Sink) : result unit * list TaskManifest * Loguru.Sink :=
  match species_list with
  | [] => (Ok tt, resources, sink)
  | species :: rest =>
      let sink := Loguru.emit Loguru.DEBUG ("Downloading files for " +:+ species) sink in
      match download_species uri_release (release conf) (staging_dir output)
              (staging_dir output) species with
      | Raise e => (Raise e, resources, sink)
      | Ok download_manifest =>
          match extract_fields_from_json (destination_path download_manifest)
                  conf output jq_cmd sink with
          | (Raise e, sink) => (Raise e, resources, sink)
          | (Ok extracted, sink) =>
              let download_manifest :=
                with_path_destination download_manifest extracted in
              let sink :=
                Loguru.emit Loguru.DEBUG
                  ("Homologue '" +:+ species +:+
                   "' data download manifest destination path set to '" +:+
                   destination_path download_manifest +:+
                   "', as final recipient for the sub-dataset") sink in
              let download_manifest :=
                with_msg_completion download_manifest
                  ("Homologue '" +:+ species +:+ "' data") in
              let download_manifest :=
                with_status_completion download_manifest COMPLETED in
              fetch_all conf output uri_release jq_cmd rest
                (resources ++ [download_manifest]) sink
          end
      end
  end.

(** The step is shared with the service: what [process] writes to it is
    written to the service's entry. *)
Definition store (svc : ManifestService) (step : ManifestStep) : ManifestService :=
  {| steps := <[step_name := step]> (steps svc) |}.

(** [Homologues.process] *)
Definition process (conf : Conf) (output : Output) (cmd_conf : CmdConf)
    (svc : ManifestService) (sink : Loguru.Sink) : Outcome unit :=
  let sink := Loguru.emit Loguru.INFO "[STEP] BEGIN, Homologues" sink in
  let uri_release := PyStr.replace "{release}" (release conf) (conf_uri conf) in
  match create_folder (OsPath.join (prod_dir output) [path conf; release conf]) with
  | Raise e => (Raise e, svc, sink)
  | Ok _ =>
      match check_path_command "jq" (cmd_jq cmd_conf) with
      | Raise e => (Raise e, svc, sink)
      | Ok jq_cmd =>
          match get_step svc step_name with
          | Raise e => (Raise e, svc, sink)
          | Ok manifest_step =>
              match fetch_all conf output uri_release jq_cmd (conf_resources conf)
                      (resources manifest_step) sink with
              | (Raise e, fetched, sink) =>
                  (Raise e,
                   store svc {| resources := fetched;
                                status_completion := status_completion manifest_step;
                                msg_completion := msg_completion manifest_step |},
                   sink)
              | (Ok _, fetched, sink) =>
                  (Ok tt,
                   store svc {| resources := compute_checksums fetched;
                                status_completion := COMPLETED;
                                msg_completion := "The step has completed its execution" |},
                   Loguru.emit Loguru.INFO "[STEP] END, Homologues" sink)
              end
          end
      end
  end.

End Process.

(** What the record that [process] appends for [species] looks like. *)
Definition marked_completed (species : string) (r : TaskManifest) : Prop :=
  task_status r = COMPLETED /\
  message r = "Homologue '" +:+ species +:+ "' data".

End Homologues.

(** ** The shape of a settings object *)

Module SettingsShape.
Import Config.

(** The attributes of the object are exactly the fields of [Settings]:
    each field holds a value and there is no other attribute. *)
Definition has_exactly_the_fields (obj : BaseModel) : Prop :=
  forall f, is_Some (attrs obj !! f) <-> f ∈ model_fields.

End SettingsShape.

(** ** More sample values *)

Module MoreSamples.

(** An environment settings model built from an empty environment: every
    field holds its default [None] and none is set. *)
Definition env_nothing_set : Config.BaseModel :=
  {| Config.attrs := {[ "step" := Config.VNone;
                        "config_file" := Config.VNone;
                        "work_dir" := Config.VNone;
                        "remote_uri" := Config.VNone;
                        "pool" := Config.VNone;
                        "log_level" := Config.VNone ]};
     Config.model_fields_set := ∅ |}.

(** A YAML settings model that gives [pool] and [log_level]. *)
Definition yaml_pool_and_level : Config.BaseModel :=
  {| Config.attrs := {[ "work_dir" := Config.VNone;
                        "remote_uri" := Config.VNone;
                        "pool" := Config.VInt 2;
                        "log_level" := Config.VStr "DEBUG" ]};
     Config.model_fields_set := {[ "pool"; "log_level" ]} |}.

(** A download that reports a failure for every resource asked of it. *)
Definition ftp_reports_failed (download_dir : string) (stage : Homologues.ResourceStage)
    : Py.result Models.TaskManifest :=
  Py.Ok {| Models.task_name := Homologues.output_filename stage;
           Models.task_status := Models.FAILED;
           Models.destination_path :=
             Homologues.output_dir stage +:+ "/" +:+ Homologues.output_filename stage;
           Models.checksum := None;
           Models.message := "550 no such file" |}.

(** An extraction that runs for every species but [mus_musculus], on
    which it raises. *)
Definition extract_but_mouse (input_file : string) (conf : Homologues.Conf)
    (output : Homologues.Output) (jq_cmd : string) : Py.M string :=
  if PyStr.contains "mus_musculus" input_file
  then Py.raise (Py.OtherError "broken pipe")
  else Py.ret (input_file +:+ ".tsv").

(** A service whose Homologues step was marked FAILED before it runs. *)
Definition failed_homologues_service : GO.ManifestService :=
  {| GO.steps :=
       {[ "Homologues" := {| GO.resources := [];
                             GO.status_completion := Models.FAILED;
                             GO.msg_completion := "configuration invalid" |} ]} |}.

Definition homologues_conf (species : list string) : Homologues.Conf :=
  {| Homologues.conf_uri := "ftp://ftp.ensembl.org/pub/release-{release}/json/";
     Homologues.release := "104";
     Homologues.path := "homologues";
     Homologues.jq := ".genes[]";
     Homologues.conf_resources := species |}.

End MoreSamples.

(** * Properties *)

#[local] Arguments String.append !s1 s2 : simpl nomatch.

(** ** Facts about the string operations *)

Module PyStrFacts.
Import PyStr.

Lemma append_empty_r (s : string) : s +:+ "" = s.
Proof. induction s as [|c s IH]; simpl; [reflexivity | now rewrite IH]. Qed.

Lemma append_assoc (a b c : string) : (a +:+ b) +:+ c = a +:+ b +:+ c.
Proof. induction a as [|x a IH]; simpl; [reflexivity | now rewrite IH]. Qed.

Lemma startswith_append (p s : string) : startswith p (p +:+ s) = true.
Proof.
  induction p as [|a p IH]; simpl; [reflexivity |].
  rewrite Ascii.eqb_refl. exact IH.
Qed.

Lemma startswith_inv (p s : string) :
  startswith p s = true -> exists t, s = p +:+ t.
Proof.
  revert s. induction p as [|a p IH]; intros s H; simpl in *.
  - now exists s.
  - destruct s as [|b s]; [discriminate |].
    apply andb_prop in H. destruct H as [Hab Hps].
    apply Ascii.eqb_eq in Hab. subst b.
    destruct (IH s Hps) as [t ->]. now exists t.
Qed.

Lemma startswith_iff (p s : string) :
  startswith p s = true <-> exists t, s = p +:+ t.
Proof.
  split; [apply startswith_inv |].
  intros [t ->]. apply startswith_append.
Qed.

(** A prefix of [s] is a prefix of every extension of [s]. *)
Lemma startswith_extend (p s t : string) :
  startswith p s = true -> startswith p (s +:+ t) = true.
Proof.
  intros H. apply startswith_inv in H. destruct H as [u ->].
  rewrite append_assoc. apply startswith_append.
Qed.

Lemma contains_unfold (sub s : string) :
  contains sub s =
  startswith sub s ||
  match s with
  | EmptyString => false
  | String _ s' => contains sub s'
  end.
Proof. destruct s; reflexivity. Qed.

Lemma contains_cons (sub : string) (c : ascii) (s : string) :
  contains sub s = true -> contains sub (String c s) = true.
Proof.
  intros H. rewrite contains_unfold, H. apply orb_true_r.
Qed.

Lemma contains_append (sub pre post : string) :
  contains sub (pre +:+ sub +:+ post) = true.
Proof.
  induction pre as [|c pre IH]; simpl.
  - now rewrite contains_unfold, startswith_append.
  - now apply contains_cons.
Qed.

Lemma contains_inv (sub s : string) :
  contains sub s = true -> exists pre post, s = pre +:+ sub +:+ post.
Proof.
  induction s as [|c s IH]; intros H.
  - rewrite contains_unfold, orb_false_r in H.
    apply startswith_inv in H. destruct H as [t ->]. now exists "", t.
  - rewrite contains_unfold in H.
    apply orb_prop in H. destruct H as [H|H].
    + apply startswith_inv in H. destruct H as [t ->]. now exists "", t.
    + destruct (IH H) as (pre & post & ->). now exists (String c pre), post.
Qed.

(** [sub in s] holds exactly when [s] has an occurrence of [sub]. *)
Lemma contains_iff (sub s : string) :
  contains sub s = true <-> exists pre post, s = pre +:+ sub +:+ post.
Proof.
  split; [apply contains_inv |].
  intros (pre & post & ->). apply contains_append.
Qed.

Lemma length_append (a b : string) :
  String.length (a +:+ b) = String.length a + String.length b.
Proof. induction a as [|c a IH]; simpl; [reflexivity | now rewrite IH]. Qed.

Lemma startswith_length (p s : string) :
  startswith p s = true -> String.length p <= String.length s.
Proof.
  intros H. apply startswith_inv in H. destruct H as [t ->].
  rewrite length_append. lia.
Qed.

(** *** Removing ['gs://'] *)

Lemma replace_gs_scan (s : string) :
  replace "gs://" "" s = replace_scan "gs://" "" 0 s.
Proof. reflexivity. Qed.

Lemma scan_gs_cons (c : ascii) (s : string) :
  replace_scan "gs://" "" 0 (String c s) =
  if startswith "gs://" (String c s)
  then replace_scan "gs://" "" 4 s
  else String c (replace_scan "gs://" "" 0 s).
Proof. reflexivity. Qed.

(** Two occurrences of ['gs://'] never overlap: one that starts before
    another one ends before it. *)
Lemma gs_no_overlap (a t : string) :
  a <> "" ->
  startswith "gs://" (a +:+ "gs://" +:+ t) = true ->
  startswith "gs://" a = true.
Proof.
  intros Ha H. apply startswith_inv in H. destruct H as [u Hu].
  destruct a as [|c1 [|c2 [|c3 [|c4 [|c5 a]]]]]; [contradiction | | | | |];
    simpl in Hu; simplify_eq; reflexivity.
Qed.

(** An occurrence of ['gs://'] is removed wherever it stands: what is left
    is what is left of the text before it, then what is left of the text
    after it. *)
Lemma scan_gs_append (b a : string) (k : nat) :
  k <= String.length a ->
  replace_scan "gs://" "" k (a +:+ "gs://" +:+ b) =
  replace_scan "gs://" "" k a +:+ replace_scan "gs://" "" 0 b.
Proof.
  revert k. induction a as [|c a IH]; intros k Hk.
  - simpl in Hk. assert (k = 0) as -> by lia. reflexivity.
  - destruct k as [|k].
    + change (String c a +:+ "gs://" +:+ b) with (String c (a +:+ "gs://" +:+ b)).
      rewrite !scan_gs_cons.
      destruct (startswith "gs://" (String c (a +:+ "gs://" +:+ b))) eqn:Hm.
      * assert (Hin : startswith "gs://" (String c a) = true)
          by (apply (gs_no_overlap (String c a) b); [discriminate | exact Hm]).
        rewrite Hin. apply IH.
        apply startswith_length in Hin. simpl in Hin. lia.
      * destruct (startswith "gs://" (String c a)) eqn:Hin.
        -- apply (startswith_extend _ _ ("gs://" +:+ b)) in Hin.
           simpl in Hin, Hm. congruence.
        -- simpl. now rewrite IH by lia.
    + simpl. apply IH. simpl in Hk. lia.
Qed.

Lemma replace_gs_append (a b : string) :
  replace "gs://" "" (a +:+ "gs://" +:+ b) =
  replace "gs://" "" a +:+ replace "gs://" "" b.
Proof. rewrite !replace_gs_scan. apply scan_gs_append. lia. Qed.

Lemma replace_gs_absent (s : string) :
  contains "gs://" s = false -> replace "gs://" "" s = s.
Proof.
  rewrite replace_gs_scan. induction s as [|c s IH]; intros H; [reflexivity |].
  rewrite contains_unfold in H. apply orb_false_elim in H. destruct H as [Hm Hs].
  rewrite scan_gs_cons, Hm, IH by exact Hs. reflexivity.
Qed.

(** A text cut at its occurrences of ['gs://'] into pieces that have none
    is left as the pieces put together. *)
Lemma replace_gs_pieces (pieces : list string) :
  Forall (fun p => contains "gs://" p = false) pieces ->
  replace "gs://" "" (String.concat "gs://" pieces) = String.concat "" pieces.
Proof.
  induction 1 as [|p ps Hp Hps IH]; [reflexivity |].
  destruct ps as [|q ps].
  - simpl. now apply replace_gs_absent.
  - change (String.concat "gs://" (p :: q :: ps))
      with (p +:+ "gs://" +:+ String.concat "gs://" (q :: ps)).
    change (String.concat "" (p :: q :: ps))
      with (p +:+ "" +:+ String.concat "" (q :: ps)).
    rewrite replace_gs_append, IH, replace_gs_absent by exact Hp.
    reflexivity.
Qed.

(** *** Splitting at the first ['/'] *)

Lemma partition_unfold (sep s : string) :
  partition sep s =
  if startswith sep s then Some (EmptyString, drop (String.length sep) s)
  else
    match s with
    | EmptyString => None
    | String c s' =>
        match partition sep s' with
        | Some (before, after) => Some (String c before, after)
        | None => None
        end
    end.
Proof. destruct s; reflexivity. Qed.

Lemma startswith_slash_cons (c : ascii) (s t : string) :
  startswith "/" (String c s) = startswith "/" (String c t).
Proof. reflexivity. Qed.

Lemma partition_slash_absent (s : string) :
  contains "/" s = false <-> partition "/" s = None.
Proof.
  induction s as [|c s IH]; [split; reflexivity |].
  rewrite contains_unfold, partition_unfold.
  destruct (startswith "/" (String c s)); simpl.
  - split; discriminate.
  - rewrite IH. destruct (partition "/" s) as [[before after]|];
      split; try reflexivity; discriminate.
Qed.

Lemma partition_slash_first (before after : string) :
  contains "/" before = false ->
  partition "/" (before +:+ "/" +:+ after) = Some (before, after).
Proof.
  induction before as [|c before IH]; intros H; [reflexivity |].
  rewrite contains_unfold in H. apply orb_false_elim in H. destruct H as [Hm Hs].
  change (String c before +:+ "/" +:+ after)
    with (String c (before +:+ "/" +:+ after)).
  rewrite partition_unfold.
  rewrite (startswith_slash_cons c _ before), Hm, (IH Hs). reflexivity.
Qed.

End PyStrFacts.

(** ** The step reporter *)

Module StepReporterSpec.
Import Models Threading StepReporter.

Lemma passing_iff (s : Status) :
  passing s = true <-> s ∈ [COMPLETED; VALIDATION_PASSED].
Proof. unfold passing. apply bool_decide_eq_true. Qed.

Lemma passing_false_iff (s : Status) :
  passing s = false <-> s ∉ [COMPLETED; VALIDATION_PASSED].
Proof. unfold passing. apply bool_decide_eq_false. Qed.

Lemma all_passing_iff (ts : list TaskManifest) :
  forallb (fun t => passing (task_status t)) ts = true <->
  forall t, t ∈ ts -> passes t.
Proof.
  rewrite forallb_forall. split; intros H t Ht.
  - apply passing_iff, H, list_elem_of_In, Ht.
  - apply passing_iff, H, list_elem_of_In, Ht.
Qed.

(** *** The loop of [complete] *)

Lemma loop_tasks (ts : list TaskManifest) (m : StepManifest) :
  tasks (fold_left complete_step ts m) = tasks m.
Proof.
  revert m. induction ts as [|t ts IH]; intros m; simpl; [reflexivity |].
  rewrite IH. unfold complete_step. now destruct (passing (task_status t)).
Qed.

Lemma loop_name (ts : list TaskManifest) (m : StepManifest) :
  step_name (fold_left complete_step ts m) = step_name m.
Proof.
  revert m. induction ts as [|t ts IH]; intros m; simpl; [reflexivity |].
  rewrite IH. unfold complete_step. now destruct (passing (task_status t)).
Qed.

Lemma loop_log (ts : list TaskManifest) (m : StepManifest) :
  log (fold_left complete_step ts m) = log m ++ map task_line ts.
Proof.
  revert m. induction ts as [|t ts IH]; intros m; simpl.
  - now rewrite app_nil_r.
  - rewrite IH. unfold complete_step.
    destruct (passing (task_status t)); simpl; now rewrite <- app_assoc.
Qed.

Lemma loop_status (ts : list TaskManifest) (m : StepManifest) :
  step_status (fold_left complete_step ts m) =
  if forallb (fun t => passing (task_status t)) ts then step_status m else FAILED.
Proof.
  revert m. induction ts as [|t ts IH]; intros m; simpl; [reflexivity |].
  rewrite IH. unfold complete_step.
  destruct (passing (task_status t)); simpl; [reflexivity |].
  now destruct (forallb _ ts).
Qed.

Lemma complete_tasks (self : StepReporter) :
  tasks (_manifest (complete self)) = tasks (_manifest self).
Proof. unfold complete. simpl. now rewrite loop_tasks. Qed.

Lemma complete_log (self : StepReporter) :
  log (_manifest (complete self)) =
  log (_manifest self) ++ map task_line (tasks (_manifest self)).
Proof. unfold complete. simpl. now rewrite loop_log. Qed.

Lemma complete_status (self : StepReporter) :
  step_status (_manifest (complete self)) =
  if forallb (fun t => passing (task_status t)) (tasks (_manifest self))
  then COMPLETED else FAILED.
Proof. unfold complete. simpl. now rewrite loop_status. Qed.

(** *** Runs of [add_task_report] *)

Lemma add_task_report_fst (self : StepReporter) (r : TaskManifest) (abort : Event) :
  fst (add_task_report self r abort) =
  with_manifest self (append_task r (_manifest self)).
Proof. unfold add_task_report. now destruct (passing (task_status r)). Qed.

Lemma add_task_report_snd (self : StepReporter) (r : TaskManifest) (abort : Event) :
  snd (add_task_report self r abort) =
  if passing (task_status r) then abort else set abort.
Proof. unfold add_task_report. now destruct (passing (task_status r)). Qed.

Lemma add_task_reports_tasks (records : list TaskManifest) (self : StepReporter)
    (abort : Event) :
  tasks (_manifest (fst (add_task_reports self records abort))) =
  tasks (_manifest self) ++ records.
Proof.
  unfold add_task_reports.
  revert self abort. induction records as [|r records IH]; intros self abort; simpl.
  - now rewrite app_nil_r.
  - rewrite (surjective_pairing (add_task_report self r abort)), IH.
    rewrite add_task_report_fst. simpl. now rewrite <- app_assoc.
Qed.

Lemma add_task_reports_flag (records : list TaskManifest) (self : StepReporter)
    (abort : Event) :
  is_set (snd (add_task_reports self records abort)) =
  is_set abort || existsb (fun r => negb (passing (task_status r))) records.
Proof.
  unfold add_task_reports.
  revert self abort. induction records as [|r records IH]; intros self abort; simpl.
  - now rewrite orb_false_r.
  - rewrite (surjective_pairing (add_task_report self r abort)), IH.
    rewrite add_task_report_snd.
    destruct (passing (task_status r)); simpl; [reflexivity |].
    now rewrite orb_true_r.
Qed.

(** *** The contract of the reporter *)

(** C1. After [complete()] the status of the step is COMPLETED iff every
    task record of the step has a status among COMPLETED and
    VALIDATION_PASSED, and FAILED otherwise; a single FAILED record among
    any number of others makes the step FAILED. It holds in every state of
    the reporter, and so for the records it ingested through
    [add_task_report]. *)
Theorem complete_status_iff_all_pass (self : StepReporter) :
  let ts := tasks (_manifest self) in
  let st := step_status (_manifest (complete self)) in
  (st = COMPLETED <-> forall t, t ∈ ts -> passes t) /\
  (st = FAILED <-> ~ (forall t, t ∈ ts -> passes t)) /\
  (forall t, t ∈ ts -> task_status t = FAILED -> st = FAILED) /\
  (forall name records abort,
     let ingested := fst (add_task_reports (init name) records abort) in
     let st' := step_status (_manifest (complete ingested)) in
     tasks (_manifest ingested) = records /\
     (st' = COMPLETED <-> forall t, t ∈ records -> passes t) /\
     (st' = FAILED <-> ~ (forall t, t ∈ records -> passes t))).
Proof.
  assert (gen : forall r : StepReporter,
    (step_status (_manifest (complete r)) = COMPLETED <->
     forall t, t ∈ tasks (_manifest r) -> passes t) /\
    (step_status (_manifest (complete r)) = FAILED <->
     ~ (forall t, t ∈ tasks (_manifest r) -> passes t))).
  { intros r. rewrite complete_status, <- all_passing_iff.
    destruct (forallb _ (tasks (_manifest r))); split; split;
      intros H; try reflexivity; try discriminate; congruence. }
  cbv zeta. destruct (gen self) as [Hc Hf].
  split; [exact Hc |]. split; [exact Hf |]. split.
  - intros t Ht Hst. apply Hf. intros Hall.
    specialize (Hall t Ht). rewrite Hst in Hall.
    apply passing_iff in Hall. discriminate.
  - intros name records abort.
    pose proof (add_task_reports_tasks records (init name) abort) as Htasks.
    simpl in Htasks. split; [exact Htasks |].
    pose proof (gen (fst (add_task_reports (init name) records abort))) as Hg.
    rewrite Htasks in Hg. exact Hg.
Qed.

(** C3. [add_task_report(record, abort)] appends [record] as the last
    element of the task list of the step, sets the abort flag exactly when
    the status of [record] is neither COMPLETED nor VALIDATION_PASSED, and
    never clears a flag that is set, over any run of calls. *)
Theorem add_task_report_appends_and_flags (self : StepReporter)
    (record : TaskManifest) (abort : Event) :
  let after := add_task_report self record abort in
  tasks (_manifest (fst after)) = tasks (_manifest self) ++ [record] /\
  last (tasks (_manifest (fst after))) = Some record /\
  (~ passes record -> is_set (snd after) = true) /\
  (passes record -> snd after = abort) /\
  (is_set abort = true -> is_set (snd after) = true) /\
  (forall records,
     is_set (snd (add_task_reports self records abort)) =
     is_set abort || existsb (fun r => negb (passing (task_status r))) records) /\
  (forall records,
     is_set abort = true ->
     is_set (snd (add_task_reports self records abort)) = true).
Proof.
  cbv zeta. rewrite add_task_report_fst, add_task_report_snd. simpl.
  split; [reflexivity |]. split; [apply last_snoc |].
  split; [| split; [| split; [| split]]].
  - intros Hnp. apply passing_false_iff in Hnp. now rewrite Hnp.
  - intros Hp. apply passing_iff in Hp. now rewrite Hp.
  - intros Hset. now destruct (passing (task_status record)).
  - intros records. apply add_task_reports_flag.
  - intros records Hset. now rewrite add_task_reports_flag, Hset.
Qed.

(** C4, as the code has it. [fail(reason, error)] sets the status of the
    step to FAILED whatever the task records are (none included) and
    appends one log line that contains [reason]. After it comes one more
    line, the text of the error, iff an error is given and it is truthy:
    the code tests [if error:], so [None] and an exception whose truth
    value is [False] both add no line. *)
Theorem fail_forces_failed (self : StepReporter) (reason : string)
    (error : option Exception) (sink : Loguru.Sink) :
  let m := _manifest (fst (fail self reason error sink)) in
  let line := fail_message self reason in
  step_status m = FAILED /\
  tasks m = tasks (_manifest self) /\
  PyStr.contains reason line = true /\
  log m = log (_manifest self) ++ line ::
            match error with
            | Some e => if truthy e then [str e] else []
            | None => []
            end /\
  (length (log m) = length (log (_manifest self)) + 2 <-> is_true error = true) /\
  (length (log m) = length (log (_manifest self)) + 1 <-> is_true error = false) /\
  (is_true error = true <-> exists e, error = Some e /\ truthy e = true) /\
  (forall name,
     let m0 := _manifest (fst (fail (init name) reason None sink)) in
     tasks m0 = [] /\ step_status m0 = FAILED /\
     log m0 = [fail_message (init name) reason]).
Proof.
  cbv zeta. unfold fail.
  assert (Hline : PyStr.contains reason (fail_message self reason) = true).
  { unfold fail_message.
    rewrite <- (PyStrFacts.append_empty_r reason) at 2.
    rewrite <- !PyStrFacts.append_assoc.
    rewrite PyStrFacts.append_assoc.
    apply PyStrFacts.contains_append. }
  destruct error as [[text [|]]|]; simpl; rewrite ?length_app; simpl;
    (split; [reflexivity |]); (split; [reflexivity |]);
    (split; [exact Hline |]); (split; [now rewrite <- ?app_assoc |]);
    (split; [split; intros H; try reflexivity; try discriminate; lia |]);
    (split; [split; intros H; try reflexivity; try discriminate; lia |]);
    (split; [| now intros name]).
  - split; [intros _; now eexists | reflexivity].
  - split; [discriminate | intros (e & He & Ht); inversion He; subst; discriminate].
  - split; [discriminate | intros (e & He & _); discriminate].
Qed.

(** C4, as stated, fails: an error is provided, its truth value is
    [False], and [fail] appends the line of the reason and no line for
    the error. *)
Lemma fail_skips_falsy_error :
  let error := Some {| str := "boom"; truthy := false |} in
  let before := init "GO" in
  let m := _manifest (fst (fail before "setup" error [])) in
  is_Some error /\
  log m = [fail_message before "setup"] /\
  ~ (length (log m) = length (log (_manifest before)) + 2 <-> is_Some error).
Proof.
  cbv zeta. split; [now eexists |]. split; [reflexivity |].
  intros [_ H]. assert (Hlen := H (ex_intro _ _ eq_refl)).
  vm_compute in Hlen. discriminate.
Qed.

(** C5. On a reporter with an empty log whose N task records all pass,
    one [complete()] sets the status to COMPLETED and leaves exactly N log
    lines, the line of each task in order; with no task the status is
    COMPLETED and the log stays empty. *)
Theorem complete_all_passing (self : StepReporter) :
  log (_manifest self) = [] ->
  (forall t, t ∈ tasks (_manifest self) -> passes t) ->
  let m := _manifest (complete self) in
  step_status m = COMPLETED /\
  log m = map task_line (tasks (_manifest self)) /\
  length (log m) = length (tasks (_manifest self)) /\
  (tasks (_manifest self) = [] -> log m = []).
Proof.
  intros Hlog Hall. cbv zeta.
  rewrite complete_status, complete_log, Hlog. simpl.
  apply all_passing_iff in Hall. rewrite Hall.
  split; [reflexivity |]. split; [reflexivity |].
  split; [apply length_map |]. now intros ->.
Qed.

(** The theorem at a reporter that ingested three passing tasks. *)
Lemma complete_all_passing_witness :
  let m := _manifest (complete Samples.three_passing) in
  step_status m = COMPLETED /\
  log m = map task_line (tasks (_manifest Samples.three_passing)) /\
  length (log m) = length (tasks (_manifest Samples.three_passing)) /\
  (tasks (_manifest Samples.three_passing) = [] -> log m = []).
Proof.
  apply (complete_all_passing Samples.three_passing).
  - reflexivity.
  - intros t Ht. apply passing_iff.
    vm_compute in Ht.
    repeat (apply elem_of_cons in Ht; destruct Ht as [-> | Ht]; [reflexivity |]).
    now apply elem_of_nil in Ht.
Defined.

(** C2, as the code has it. [complete()] has no guard against re-entry: a
    second call recomputes the same status and appends the line of every
    task once more, so the log after two calls is the log after one call
    followed by the task lines again. The log is left alone by the second
    call exactly when the step has no task. *)
Theorem complete_twice_appends_again (self : StepReporter) :
  let once := _manifest (complete self) in
  let twice := _manifest (complete (complete self)) in
  step_status twice = step_status once /\
  tasks twice = tasks once /\
  log twice = log once ++ map task_line (tasks (_manifest self)) /\
  length (log twice) = length (log once) + length (tasks (_manifest self)) /\
  (log twice = log once <-> tasks (_manifest self) = []).
Proof.
  cbv zeta.
  rewrite (complete_status (complete self)), (complete_tasks (complete self)).
  rewrite (complete_log (complete self)), !complete_tasks, complete_status.
  split; [reflexivity |]. split; [reflexivity |]. split; [reflexivity |].
  split; [now rewrite length_app, length_map |].
  split.
  - intros H. apply (f_equal length) in H.
    rewrite length_app, length_map in H.
    destruct (tasks (_manifest self)); [reflexivity | simpl in H; lia].
  - intros ->. simpl. apply app_nil_r.
Qed.

(** C2, as stated, fails: with one ingested task the second [complete()]
    appends the line of that task a second time. *)
Lemma complete_twice_not_idempotent :
  log (_manifest (complete (complete Samples.one_completed))) <>
  log (_manifest (complete Samples.one_completed)).
Proof. vm_compute. discriminate. Qed.

End StepReporterSpec.

(** ** The GO step *)

Module GOSpec.
Import Models Py GO.

Lemma are_all_resources_complete_iff (records : list TaskManifest) :
  are_all_resources_complete records = true <->
  forall r, r ∈ records -> task_status r ∈ [COMPLETED; VALIDATION_PASSED].
Proof.
  unfold are_all_resources_complete. rewrite forallb_forall.
  split; intros H r Hr.
  - apply (bool_decide_eq_true _), H, list_elem_of_In, Hr.
  - apply (bool_decide_eq_true _), H, list_elem_of_In, Hr.
Qed.

(** The status and message [finish] leaves, by cases. *)
Lemma finish_cases (step : ManifestStep) :
  resources (finish step) = resources step /\
  (are_all_resources_complete (resources step) = false ->
   status_completion (finish step) = FAILED /\
   msg_completion (finish step) = "COULD NOT retrieve all the resources") /\
  (are_all_resources_complete (resources step) = true ->
   status_completion step <> FAILED ->
   status_completion (finish step) = COMPLETED /\
   msg_completion (finish step) = "The step has completed its execution") /\
  (are_all_resources_complete (resources step) = true ->
   status_completion step = FAILED ->
   finish step = step).
Proof.
  unfold finish.
  destruct (are_all_resources_complete (resources step)) eqn:Hall; simpl.
  - destruct (bool_decide (status_completion step = FAILED)) eqn:Hst; simpl.
    + apply bool_decide_eq_true in Hst.
      split; [reflexivity |]. split; [discriminate |].
      split; [intros _ Hne; contradiction | reflexivity].
    + apply bool_decide_eq_false in Hst.
      split; [reflexivity |]. split; [discriminate |].
      split; [now intros _ _ | intros _ Heq; contradiction].
  - split; [reflexivity |]. split; [now intros _ |].
    split; discriminate.
Qed.

Section Process.

Variable Conf : Type.
Variable Downloads_exec : string -> Conf -> list TaskManifest.
Variable compute_checksums : list TaskManifest -> list TaskManifest.

(** C6, as the code has it. [process] on a declared GO step returns, and
    leaves in the service the step with the collected resources after the
    checksum pass. If [are_all_resources_complete] (true iff every record
    is COMPLETED or VALIDATION_PASSED) is false on them, the status is
    FAILED with the message 'COULD NOT retrieve all the resources'. If it
    is true the status becomes COMPLETED unless the step was FAILED on
    entry: then status and message stay as they were. On an undeclared
    step [process] raises at [get_step]. *)
Theorem process_completion_status (conf : Conf) (output : Output)
    (svc : ManifestService) (sink : Loguru.Sink) :
  match steps svc !! step_name with
  | None =>
      fst (process Conf Downloads_exec compute_checksums conf output svc sink)
      = Raise (KeyError step_name)
  | Some step0 =>
      let rs := compute_checksums
                  (resources step0 ++ Downloads_exec (prod_dir output) conf) in
      exists step,
        fst (process Conf Downloads_exec compute_checksums conf output svc sink)
        = Ok {| steps := <[step_name := step]> (steps svc) |} /\
        resources step = rs /\
        (are_all_resources_complete rs = true <->
         forall r, r ∈ rs -> task_status r ∈ [COMPLETED; VALIDATION_PASSED]) /\
        (are_all_resources_complete rs = false ->
         status_completion step = FAILED /\
         msg_completion step = "COULD NOT retrieve all the resources") /\
        (are_all_resources_complete rs = true ->
         status_completion step0 <> FAILED ->
         status_completion step = COMPLETED /\
         msg_completion step = "The step has completed its execution") /\
        (are_all_resources_complete rs = true ->
         status_completion step0 = FAILED ->
         status_completion step = FAILED /\
         msg_completion step = msg_completion step0) /\
        (status_completion step = FAILED <->
         are_all_resources_complete rs = false \/ status_completion step0 = FAILED)
  end.
Proof.
  unfold process, bind, call, logger, ret, get_step, store.
  destruct (steps svc !! step_name) as [step0|] eqn:Hget; simpl; [| reflexivity].
  set (rs := compute_checksums
               (resources step0 ++ Downloads_exec (prod_dir output) conf)).
  set (collected := {| resources := rs;
                       status_completion := status_completion step0;
                       msg_completion := msg_completion step0 |}).
  exists (finish collected).
  destruct (finish_cases collected) as (Hres & Hfail & Hdone & Hkeep).
  simpl in Hres, Hfail, Hdone, Hkeep.
  split; [reflexivity |]. split; [exact Hres |].
  split; [apply are_all_resources_complete_iff |].
  split; [exact Hfail |]. split; [exact Hdone |]. split.
  - intros Hall Hst. rewrite (Hkeep Hall Hst). simpl. now split.
  - destruct (are_all_resources_complete rs) eqn:Hall.
    + destruct (decide (status_completion step0 = FAILED)) as [Hst|Hst].
      * rewrite (Hkeep eq_refl Hst). simpl. split; [now right | now intros _].
      * destruct (Hdone eq_refl Hst) as [-> _].
        split; [discriminate | intros [?|?]; [discriminate | contradiction]].
    + destruct (Hfail eq_refl) as [-> _]. split; [now left | reflexivity].
Qed.

End Process.

(** C6, as stated, fails: every resource of the step is complete, and the
    status left by [process] is FAILED, not COMPLETED, because the step
    was FAILED on entry. *)
Lemma process_keeps_failed_step :
  match fst (process unit Samples.one_download Samples.digest_all tt
               {| prod_dir := "output" |} Samples.failed_go_service [])
  with
  | Ok svc =>
      match steps svc !! "GO" with
      | Some step =>
          are_all_resources_complete (resources step) = true /\
          status_completion step = FAILED /\
          status_completion step <> COMPLETED
      | None => False
      end
  | Raise _ => False
  end.
Proof. vm_compute. repeat split; discriminate. Qed.

End GOSpec.

(** ** The Google Cloud Storage helper *)

Module GoogleSpec.
Import Py Google.

(** *** [_parse_url] *)

Lemma parse_url_no_slash (url : string) :
  PyStr.contains "/" (PyStr.replace "gs://" "" url) = false ->
  _parse_url url = (PyStr.replace "gs://" "" url, None).
Proof.
  intros H. apply PyStrFacts.partition_slash_absent in H.
  unfold _parse_url, PyStr.split1. now rewrite H.
Qed.

Lemma parse_url_first_slash (url before after : string) :
  PyStr.replace "gs://" "" url = before +:+ "/" +:+ after ->
  PyStr.contains "/" before = false ->
  _parse_url url = (before, Some after).
Proof.
  intros Hs Hb. unfold _parse_url, PyStr.split1.
  now rewrite Hs, (PyStrFacts.partition_slash_first before after Hb).
Qed.

Lemma parse_url_path_none (url : string) :
  snd (_parse_url url) = None <->
  PyStr.contains "/" (PyStr.replace "gs://" "" url) = false.
Proof.
  rewrite PyStrFacts.partition_slash_absent.
  unfold _parse_url, PyStr.split1.
  destruct (PyStr.partition "/" _) as [[before after]|]; simpl;
    split; try reflexivity; discriminate.
Qed.

(** C10. [_parse_url] removes every occurrence of ['gs://'] of [url],
    wherever it stands: around any occurrence the stripped text is the
    stripped text before it followed by the stripped text after it; cut
    at all its occurrences into pieces free of ['gs://'], [url] is left as
    the pieces put together; without an occurrence it is left as it is.
    The stripped text is then split at its first ['/']: the first
    component is the text before that ['/'] and the second the text after
    it, and the second component is [None] iff the stripped text has no
    ['/'] (the first component is then the whole stripped text). *)
Theorem parse_url_strips_then_splits (url : string) :
  let stripped := PyStr.replace "gs://" "" url in
  (forall a b, url = a +:+ "gs://" +:+ b ->
     stripped = PyStr.replace "gs://" "" a +:+ PyStr.replace "gs://" "" b) /\
  (forall pieces, url = String.concat "gs://" pieces ->
     Forall (fun p => PyStr.contains "gs://" p = false) pieces ->
     stripped = String.concat "" pieces) /\
  (PyStr.contains "gs://" url = false -> stripped = url) /\
  (forall before after, stripped = before +:+ "/" +:+ after ->
     PyStr.contains "/" before = false ->
     _parse_url url = (before, Some after)) /\
  (PyStr.contains "/" stripped = false -> _parse_url url = (stripped, None)) /\
  (snd (_parse_url url) = None <-> PyStr.contains "/" stripped = false).
Proof.
  cbv zeta. split; [| split; [| split; [| split; [| split]]]].
  - intros a b ->. apply PyStrFacts.replace_gs_append.
  - intros pieces -> Hfree. now apply PyStrFacts.replace_gs_pieces.
  - apply PyStrFacts.replace_gs_absent.
  - apply parse_url_first_slash.
  - apply parse_url_no_slash.
  - apply parse_url_path_none.
Qed.

(** An occurrence in the middle of the URL is removed too, and removing
    one can bring the two sides together into a new ['gs://']. *)
Example parse_url_inner_occurrence :
  _parse_url "data/gs://bucket" = ("data", Some "bucket") /\
  _parse_url "gs://bucket/path/to/file" = ("bucket", Some "path/to/file") /\
  _parse_url "gs://bucket" = ("bucket", None) /\
  PyStr.replace "gs://" "" "gs:gs:////bucket" = "gs://bucket".
Proof. repeat split. Qed.

(** *** [__init__] *)

Lemma bucket_exists_cloud_error (self : GoogleHelper) (url : string) (e : exn)
    (sink : Loguru.Sink) :
  get_bucket (client self) (fst (_parse_url url)) = Raise e ->
  is_cloud_error e = true ->
  exists sink', bucket_exists self url sink = (Ok false, sink').
Proof.
  intros Hget He. unfold bucket_exists.
  destruct (_parse_url url) as [bucket_name file_path]. simpl in Hget.
  unfold bind, try_except, call, logger, ret. rewrite Hget.
  destruct e; try discriminate; eexists; reflexivity.
Qed.

(** C7. Constructing the helper without default credentials, or (once
    authenticated, with a client) without the [gcp_bucket_path] setting or
    with a configured bucket that does not exist, ends in [sys.exit(1)]:
    [SystemExit(1)] leaves the constructor, after a CRITICAL log message,
    and the process exits with status 1. The constructor has no manifest
    at hand: nothing is recorded in a step manifest and no helper is
    returned for a task to use. *)
Theorem init_exits_on_setup_failure (env : Env) (sink : Loguru.Sink) :
  setup_failure env ->
  exists sink' msg,
    init env sink = (Raise (SystemExit 1), sink') /\
    exit_status (fst (init env sink)) = 1%Z /\
    last sink' = Some {| Loguru.level := Loguru.CRITICAL; Loguru.text := msg |}.
Proof.
  intros [[msg Hauth] | (project_id & cl & Hauth & Hcl & Hbucket)].
  - exists (Loguru.emit Loguru.CRITICAL ("error : " +:+ msg) sink), ("error : " +:+ msg).
    unfold init, bind, try_except, call, logger, sys_exit, raise.
    rewrite Hauth. simpl.
    split; [reflexivity |]. split; [reflexivity |]. apply last_snoc.
  - destruct Hbucket as [Hnone | (path & e & Hpath & Hget & He)].
    + eexists (Loguru.emit Loguru.CRITICAL _ _), _.
      unfold init, bind, try_except, call, logger, sys_exit, raise.
      rewrite Hauth, Hcl, Hnone. simpl.
      split; [reflexivity |]. split; [reflexivity |]. apply last_snoc.
    + set (self := {| client := cl |}).
      destruct (bucket_exists_cloud_error self path e
                  (Loguru.emit Loguru.DEBUG
                     ("gcp authenticated on project " +:+ project_id) sink)
                  Hget He) as [sink1 Hexists].
      exists (Loguru.emit Loguru.CRITICAL ("gcp bucket does not exist: " +:+ path) sink1),
             ("gcp bucket does not exist: " +:+ path).
      unfold init, bind, try_except, call, logger, sys_exit, raise.
      rewrite Hauth, Hcl, Hpath. cbv beta iota zeta.
      fold self. rewrite Hexists. cbv beta iota zeta.
      split; [reflexivity |]. split; [reflexivity |]. apply last_snoc.
Qed.

(** The theorem at an environment whose configured bucket does not
    exist. *)
Lemma init_exits_on_setup_failure_witness :
  exists sink' msg,
    init Samples.missing_bucket_env [] = (Raise (SystemExit 1), sink') /\
    exit_status (fst (init Samples.missing_bucket_env [])) = 1%Z /\
    last sink' = Some {| Loguru.level := Loguru.CRITICAL; Loguru.text := msg |}.
Proof.
  apply (init_exits_on_setup_failure Samples.missing_bucket_env []).
  right. exists "open-targets", Samples.one_bucket_client.
  split; [reflexivity |]. split; [reflexivity |].
  right. exists "gs://no-such-bucket/output", (NotFound "404 no-such-bucket").
  split; [reflexivity |]. split; reflexivity.
Defined.

(** *** [list] *)

(** C9. [list] applies the [exclude] filter only when [include] is
    [None]: with an [include] the result does not depend on [exclude], and
    is the URLs of the blobs whose name contains [include]; without one
    and with an [exclude] it is the URLs of the blobs whose name does not
    contain [exclude]. When the bucket lookup (or the listing) raises
    [NotFound] or any other cloud error, [list] returns the empty list and
    does not raise. *)
Theorem list_include_first_and_errors_empty (self : GoogleHelper) (url : string)
    (include exclude : option string) (sink : Loguru.Sink) :
  let bucket_name := fst (_parse_url url) in
  let prefix := snd (_parse_url url) in
  (forall inc, include = Some inc ->
     list self url include exclude sink = list self url include None sink) /\
  (forall bucket blobs,
     get_bucket (client self) bucket_name = Ok bucket ->
     list_blobs bucket prefix = Ok blobs ->
     list self url include exclude sink =
     (Ok (map (blob_url bucket_name)
            match include, exclude with
            | Some inc, _ =>
                filter (fun blob => PyStr.contains inc (blob_name blob) = true) blobs
            | None, Some exc =>
                filter (fun blob => PyStr.contains exc (blob_name blob) = false) blobs
            | None, None => blobs
            end), sink)) /\
  (forall e,
     get_bucket (client self) bucket_name = Raise e ->
     is_cloud_error e = true ->
     fst (list self url include exclude sink) = Ok []) /\
  (forall bucket e,
     get_bucket (client self) bucket_name = Ok bucket ->
     list_blobs bucket prefix = Raise e ->
     is_cloud_error e = true ->
     fst (list self url include exclude sink) = Ok []).
Proof.
  cbv zeta. unfold list.
  destruct (_parse_url url) as [bucket_name prefix]. simpl fst. simpl snd.
  unfold bind, try_except, call, logger, ret.
  split; [| split; [| split]].
  - intros inc ->.
    destruct (get_bucket (client self) bucket_name) as [bucket|e];
      [destruct (list_blobs bucket prefix) as [blobs|e] |];
      try reflexivity; destruct e; reflexivity.
  - intros bucket blobs -> ->. cbv beta iota zeta. unfold select.
    destruct include, exclude; reflexivity.
  - intros e -> He. destruct e; try discriminate; reflexivity.
  - intros bucket e -> -> He. destruct e; try discriminate; reflexivity.
Qed.

(** On the sample bucket: an [include] makes [exclude] irrelevant, an
    [exclude] alone filters, and an unknown bucket gives the empty
    list. *)
Example list_on_sample_bucket :
  let self := {| client := Samples.one_bucket_client |} in
  fst (list self "gs://ot-team/input" (Some "go") (Some "log") [])
  = Ok ["gs://ot-team/input/go.obo"; "gs://ot-team/input/go.log"] /\
  fst (list self "gs://ot-team/input" None (Some "log") [])
  = Ok ["gs://ot-team/input/go.obo"; "gs://ot-team/manifest.json"] /\
  fst (list self "gs://elsewhere/input" None None []) = Ok [].
Proof. repeat split. Qed.

End GoogleSpec.

(** ** Merging settings *)

Module ConfigSpec.
Import Py Config.

Lemma setattr_lookup (obj : BaseModel) (name : string) (value : Value) (f : string) :
  attrs (setattr obj name value) !! f =
  if decide (name = f) then Some value else attrs obj !! f.
Proof. unfold setattr. simpl. apply lookup_insert. Qed.

(** The loop over [names] overwrites the fields of [names] that are set on
    [incoming] and no other. *)
Lemma merge_fields_frame (names : list string) (self incoming : BaseModel) :
  well_formed incoming ->
  exists merged,
    merge_fields names self incoming = Ok merged /\
    forall f,
      attrs merged !! f =
      if decide (f ∈ names /\ f ∈ model_fields_set incoming)
      then attrs incoming !! f
      else attrs self !! f.
Proof.
  intros Hwf. revert self.
  induction names as [|n names IH]; intros self.
  - exists self. split; [reflexivity |]. intros f.
    destruct (decide (f ∈ [] /\ f ∈ model_fields_set incoming)) as [[H _]|];
      [inversion H | reflexivity].
  - cbn [merge_fields]. case_bool_decide as Hset.
    + destruct (Hwf n Hset) as [v Hv]. unfold getattr. rewrite Hv.
      destruct (IH (setattr self n v)) as (merged & Hm & Hframe).
      exists merged. split; [exact Hm |]. intros f.
      rewrite Hframe, setattr_lookup.
      destruct (decide (f ∈ names /\ f ∈ model_fields_set incoming)) as [[Hin Hf]|Hno];
        destruct (decide (f ∈ n :: names /\ f ∈ model_fields_set incoming)) as [[Hin' Hf']|Hno'];
        destruct (decide (n = f)) as [->|Hne];
        try reflexivity; try congruence.
      * exfalso. apply Hno'. split; [now right | exact Hf].
      * exfalso. apply Hno'. split; [now right | exact Hf].
      * exfalso. apply Hno. apply elem_of_cons in Hin'.
        destruct Hin' as [->|Hin']; [contradiction | now split].
      * exfalso. apply Hno'. split; [now left | exact Hset].
    + destruct (IH self) as (merged & Hm & Hframe).
      exists merged. split; [exact Hm |]. intros f.
      rewrite Hframe.
      destruct (decide (f ∈ names /\ f ∈ model_fields_set incoming)) as [[Hin Hf]|Hno];
        destruct (decide (f ∈ n :: names /\ f ∈ model_fields_set incoming)) as [[Hin' Hf']|Hno'];
        try reflexivity.
      * exfalso. apply Hno'. split; [now right | exact Hf].
      * exfalso. apply Hno. apply elem_of_cons in Hin'.
        destruct Hin' as [->|Hin']; [contradiction | now split].
Qed.

(** C8. [merge_model] returns, and overwrites exactly the fields of the
    settings whose names are in the set of explicitly set fields of the
    incoming model, with the incoming values; every other field, and any
    other attribute, keeps the value it had. *)
Theorem merge_model_overwrites_set_fields (self incoming : BaseModel) :
  well_formed incoming ->
  exists merged,
    merge_model self incoming = Ok merged /\
    (forall f, f ∈ model_fields -> f ∈ model_fields_set incoming ->
       attrs merged !! f = attrs incoming !! f) /\
    (forall f, f ∉ model_fields_set incoming ->
       attrs merged !! f = attrs self !! f) /\
    (forall f, f ∉ model_fields -> attrs merged !! f = attrs self !! f).
Proof.
  intros Hwf.
  destruct (merge_fields_frame model_fields self incoming Hwf)
    as (merged & Hm & Hframe).
  exists merged. split; [exact Hm |].
  split; [| split]; intros f; intros; rewrite Hframe; case_decide;
    try reflexivity; tauto.
Qed.

(** The theorem at the default settings and a CLI model that sets
    [step] and [pool]. *)
Lemma merge_model_overwrites_set_fields_witness :
  exists merged,
    merge_model Settings_new Samples.cli_step_and_pool = Ok merged /\
    (forall f, f ∈ model_fields -> f ∈ model_fields_set Samples.cli_step_and_pool ->
       attrs merged !! f = attrs Samples.cli_step_and_pool !! f) /\
    (forall f, f ∉ model_fields_set Samples.cli_step_and_pool ->
       attrs merged !! f = attrs Settings_new !! f) /\
    (forall f, f ∉ model_fields -> attrs merged !! f = attrs Settings_new !! f).
Proof.
  apply (merge_model_overwrites_set_fields Settings_new Samples.cli_step_and_pool).
  intros name Hname. unfold Samples.cli_step_and_pool in *. simpl in *.
  apply elem_of_union in Hname. destruct Hname as [Hname | Hname];
    apply elem_of_singleton in Hname; subst name; vm_compute; eauto.
Defined.

(** On the sample: [step] and [pool] are taken from the incoming model,
    the other fields keep their defaults although the incoming model
    holds a value for them. *)
Example merge_model_on_sample :
  match merge_model Settings_new Samples.cli_step_and_pool with
  | Ok merged =>
      attrs merged !! "step" = Some (VStr "go") /\
      attrs merged !! "pool" = Some (VInt 8) /\
      attrs merged !! "work_dir" = Some (VPath "./output") /\
      attrs merged !! "log_level" = Some (VStr "INFO")
  | Raise _ => False
  end.
Proof. vm_compute. repeat split. Qed.

End ConfigSpec.

(** ** Runs of reporter calls *)

Module ReporterRunSpec.
Import Models Threading StepReporter ReporterRun.

Lemma fail_manifest (self : StepReporter) (reason : string)
    (error : option Exception) (sink : Loguru.Sink) :
  let m := _manifest (fst (fail self reason error sink)) in
  step_name m = step_name (_manifest self) /\
  tasks m = tasks (_manifest self) /\
  log m = log (_manifest self) ++ fail_message self reason ::
            match error with
            | Some e => if truthy e then [str e] else []
            | None => []
            end.
Proof.
  cbv zeta. unfold fail. destruct error as [[text [|]]|]; simpl;
    repeat split; now rewrite <- ?app_assoc.
Qed.

Lemma complete_name (self : StepReporter) :
  name (complete self) = name self /\
  step_name (_manifest (complete self)) = step_name (_manifest self).
Proof.
  unfold complete. simpl. split; [reflexivity |].
  now rewrite StepReporterSpec.loop_name.
Qed.

(** What one call does to the parts of the world. *)
Lemma call_effect (w : World) (c : Call) :
  let w' := call w c in
  name (reporter w') = name (reporter w) /\
  step_name (_manifest (reporter w')) = step_name (_manifest (reporter w)) /\
  tasks (_manifest (reporter w')) = tasks (_manifest (reporter w)) ++ added [c] /\
  log (_manifest (reporter w)) `prefix_of` log (_manifest (reporter w')) /\
  sink w `prefix_of` sink w' /\
  is_set (abort w') =
  is_set (abort w) ||
  existsb (fun t => negb (passing (task_status t))) (added [c]).
Proof.
  cbv zeta. destruct c as [t | | reason error]; unfold call;
    cbn [reporter abort sink].
  - change (added [AddTaskReport t]) with [t].
    rewrite StepReporterSpec.add_task_report_fst,
      StepReporterSpec.add_task_report_snd. simpl.
    repeat split; try reflexivity.
    destruct (passing (task_status t)); simpl;
      [now rewrite orb_false_r | now rewrite orb_true_r].
  - change (added [Complete]) with (@nil TaskManifest).
    destruct (complete_name (reporter w)) as [Hn Hs].
    rewrite Hn, Hs, StepReporterSpec.complete_tasks,
      StepReporterSpec.complete_log, app_nil_r. simpl existsb.
    rewrite orb_false_r.
    repeat split; try reflexivity. now apply prefix_app_r.
  - change (added [Fail reason error]) with (@nil TaskManifest).
    destruct (fail_manifest (reporter w) reason error (sink w)) as (Hs & Ht & Hl).
    rewrite Hs, Ht, Hl, app_nil_r. simpl existsb. rewrite orb_false_r.
    repeat split; try reflexivity.
    + now apply prefix_app_r.
    + unfold fail. simpl. unfold Loguru.emit. now apply prefix_app_r.
Qed.

Lemma added_app (xs ys : list Call) : added (xs ++ ys) = added xs ++ added ys.
Proof. unfold added. apply omap_app. Qed.

Lemma run_effect (calls : list Call) (w : World) :
  let w' := run w calls in
  name (reporter w') = name (reporter w) /\
  step_name (_manifest (reporter w')) = step_name (_manifest (reporter w)) /\
  tasks (_manifest (reporter w')) = tasks (_manifest (reporter w)) ++ added calls /\
  log (_manifest (reporter w)) `prefix_of` log (_manifest (reporter w')) /\
  sink w `prefix_of` sink w' /\
  is_set (abort w') =
  is_set (abort w) ||
  existsb (fun t => negb (passing (task_status t))) (added calls).
Proof.
  cbv zeta. unfold run. revert w.
  induction calls as [|c calls IH]; intros w.
  - simpl. rewrite app_nil_r, orb_false_r. repeat split; reflexivity.
  - simpl fold_left.
    destruct (IH (call w c)) as (Hn & Hs & Ht & Hl & Hk & Ha).
    destruct (call_effect w c) as (Hn1 & Hs1 & Ht1 & Hl1 & Hk1 & Ha1).
    rewrite Hn, Hs, Ht, Ha, Hn1, Hs1, Ht1, Ha1.
    change (c :: calls) with ([c] ++ calls).
    rewrite added_app, existsb_app, <- app_assoc, orb_assoc.
    repeat split; try reflexivity.
    + now transitivity (log (_manifest (reporter (call w c)))).
    + now transitivity (sink (call w c)).
Qed.

(** X1. Whatever calls are made on a reporter, in whatever order, nothing
    it holds is removed or reordered: its name and the name of its
    manifest stay, the task list is the old one followed by the records
    handed to [add_task_report] in call order (neither [complete] nor
    [fail] touches it), the old log is a prefix of the new log, the old
    sink content a prefix of the new, and a set abort event stays set. *)
Theorem run_only_appends (w : World) (calls : list Call) :
  let w' := run w calls in
  name (reporter w') = name (reporter w) /\
  step_name (_manifest (reporter w')) = step_name (_manifest (reporter w)) /\
  tasks (_manifest (reporter w')) = tasks (_manifest (reporter w)) ++ added calls /\
  log (_manifest (reporter w)) `prefix_of` log (_manifest (reporter w')) /\
  sink w `prefix_of` sink w' /\
  (is_set (abort w) = true -> is_set (abort w') = true).
Proof.
  cbv zeta.
  destruct (run_effect calls w) as (Hn & Hs & Ht & Hl & Hk & Ha).
  repeat split; try assumption.
  intros Hset. now rewrite Ha, Hset.
Qed.

Lemma not_all_passing (ts : list TaskManifest) :
  existsb (fun t => negb (passing (task_status t))) ts =
  negb (forallb (fun t => passing (task_status t)) ts).
Proof.
  induction ts as [|t ts IH]; simpl; [reflexivity |].
  rewrite IH. now destruct (passing (task_status t)).
Qed.

Lemma some_not_passing (ts : list TaskManifest) :
  forallb (fun t => passing (task_status t)) ts = false ->
  exists t, t ∈ ts /\ passing (task_status t) = false.
Proof.
  induction ts as [|t ts IH]; simpl; [discriminate |].
  destruct (passing (task_status t)) eqn:Hp; simpl; intros H.
  - destruct (IH H) as (u & Hin & Hu). exists u. split; [now right | exact Hu].
  - exists t. split; [now left | exact Hp].
Qed.

(** X2. On a reporter used from its construction with an event nobody
    else sets, after any run of calls the abort event is set exactly when
    the step holds a record that does not pass, and so exactly when a
    [complete()] at that point makes the step FAILED: the abort signal and
    the step status agree. *)
Theorem abort_agrees_with_status (step : string) (calls : list Call) :
  let w := run (fresh step) calls in
  (is_set (abort w) = true <->
   exists t, t ∈ tasks (_manifest (reporter w)) /\ ~ passes t) /\
  (is_set (abort w) = true <->
   step_status (_manifest (complete (reporter w))) = FAILED).
Proof.
  cbv zeta.
  destruct (run_effect calls (fresh step)) as (_ & _ & Ht & _ & _ & Ha).
  simpl in Ht, Ha. rewrite Ha, StepReporterSpec.complete_status, Ht.
  rewrite not_all_passing.
  destruct (forallb _ (added calls)) eqn:Hall; simpl.
  - split; split; try discriminate.
    intros (t & Hin & Hnp). exfalso. apply Hnp.
    exact (proj1 (StepReporterSpec.all_passing_iff _) Hall t Hin).
  - split; split; try reflexivity. intros _.
    destruct (some_not_passing _ Hall) as (t & Hin & Hf).
    exists t. split; [exact Hin |].
    now apply StepReporterSpec.passing_false_iff.
Qed.

(** X3. [complete()] overrides an earlier [fail()]: after [fail] and then
    [complete] the status is COMPLETED iff every task record passes (so
    always when there is no task), and the failure survives only as its
    log lines (the line of the reason, and the text of the error when
    one is given and truthy), which precede the task lines. In the other
    order, [fail] after [complete], the step is FAILED. *)
Theorem complete_overrides_fail (self : StepReporter) (reason : string)
    (error : option Exception) (sink : Loguru.Sink) :
  let m := _manifest (complete (fst (fail self reason error sink))) in
  (step_status m = COMPLETED <->
   forall t, t ∈ tasks (_manifest self) -> passes t) /\
  (tasks (_manifest self) = [] -> step_status m = COMPLETED) /\
  log m = log (_manifest self) ++
          (fail_message self reason ::
             match error with
             | Some e => if truthy e then [str e] else []
             | None => []
             end) ++
          map task_line (tasks (_manifest self)) /\
  step_status (_manifest (fst (fail (complete self) reason error sink))) = FAILED.
Proof.
  cbv zeta.
  destruct (fail_manifest self reason error sink) as (_ & Ht & Hl).
  rewrite StepReporterSpec.complete_status, StepReporterSpec.complete_log, Ht, Hl.
  rewrite <- StepReporterSpec.all_passing_iff.
  split; [| split; [| split]].
  - destruct (forallb _ (tasks (_manifest self))); split;
      try reflexivity; discriminate.
  - now intros ->.
  - now rewrite <- app_assoc.
  - unfold fail. now destruct error as [[text [|]]|].
Qed.

End ReporterRunSpec.

(** ** More on the Google Cloud Storage helper *)

Module GoogleMore.
Import Py Google.

(** *** URLs and their parts *)

Lemma partition_slash_some (s before after : string) :
  PyStr.partition "/" s = Some (before, after) ->
  s = before +:+ "/" +:+ after /\ PyStr.contains "/" before = false.
Proof.
  revert before after. induction s as [|c s IH]; intros before after H.
  - discriminate.
  - rewrite PyStrFacts.partition_unfold in H.
    destruct (PyStr.startswith "/" (String c s)) eqn:Hm.
    + apply PyStrFacts.startswith_inv in Hm. destruct Hm as [t Ht].
      rewrite Ht in H. simpl in H. inversion H; subst. now rewrite Ht.
    + destruct (PyStr.partition "/" s) as [[b a]|]; [| discriminate].
      inversion H; subst. destruct (IH b after eq_refl) as [-> Hb].
      split; [reflexivity |].
      rewrite PyStrFacts.contains_unfold, Hb.
      now rewrite (PyStrFacts.startswith_slash_cons c _ (b +:+ "/" +:+ after)), Hm.
Qed.

(** X5. The parts [_parse_url] gives back put the stripped URL together
    again: it is the bucket name alone when there is no path, and the
    bucket name, a ['/'] and the path otherwise; and the bucket name never
    contains a ['/']. *)
Theorem parse_url_reassembles (url : string) :
  let bucket_name := fst (_parse_url url) in
  PyStr.contains "/" bucket_name = false /\
  PyStr.replace "gs://" "" url =
  match snd (_parse_url url) with
  | Some file_path => bucket_name +:+ "/" +:+ file_path
  | None => bucket_name
  end.
Proof.
  cbv zeta. unfold _parse_url, PyStr.split1.
  destruct (PyStr.partition "/" (PyStr.replace "gs://" "" url))
    as [[before after]|] eqn:Hp; simpl.
  - destruct (partition_slash_some _ _ _ Hp) as [Hs Hb]. now split.
  - split; [| reflexivity]. now apply PyStrFacts.partition_slash_absent.
Qed.

(** X6. The URL [list] builds for a blob parses back to the bucket and
    the blob name, provided the bucket name has no ['/'] and the bucket
    name, a ['/'] and the blob name hold no ['gs://'] (which [_parse_url]
    would remove). *)
Theorem parse_url_of_blob_url (bucket_name : string) (blob : Blob) :
  PyStr.contains "/" bucket_name = false ->
  PyStr.contains "gs://" (bucket_name +:+ "/" +:+ blob_name blob) = false ->
  _parse_url (blob_url bucket_name blob) = (bucket_name, Some (blob_name blob)).
Proof.
  intros Hslash Hgs.
  apply GoogleSpec.parse_url_first_slash; [| exact Hslash].
  unfold blob_url.
  change ("gs://" +:+ bucket_name +:+ "/" +:+ blob_name blob)
    with ("" +:+ "gs://" +:+ (bucket_name +:+ "/" +:+ blob_name blob)).
  rewrite PyStrFacts.replace_gs_append.
  now rewrite (PyStrFacts.replace_gs_absent _ Hgs).
Qed.

(** The theorem at the bucket [ot-team] and the blob [input/go.obo]. *)
Lemma parse_url_of_blob_url_witness :
  _parse_url (blob_url "ot-team" {| blob_name := "input/go.obo" |})
  = ("ot-team", Some "input/go.obo").
Proof.
  apply (parse_url_of_blob_url "ot-team" {| blob_name := "input/go.obo" |});
    reflexivity.
Defined.

(** *** The constructor *)

(** X7. The constructor returns a helper exactly when there are default
    credentials, the client is built, [gcp_bucket_path] is set and the
    lookup of its bucket answers: a helper that exists has seen its
    configured bucket. The helper holds the client that was built. *)
Theorem init_returns_iff (env : Env) (sink : Loguru.Sink) (helper : GoogleHelper) :
  fst (init env sink) = Ok helper <->
  exists project_id path bucket,
    auth_default env = Ok project_id /\
    storage_Client env = Ok (client helper) /\
    gcp_bucket_path env = Some path /\
    get_bucket (client helper) (fst (_parse_url path)) = Ok bucket.
Proof.
  destruct helper as [cl]. cbn [client].
  unfold init, bucket_exists, bind, try_except, call, logger, sys_exit, raise, ret.
  destruct (auth_default env) as [project_id | e] eqn:Hauth.
  2:{ split.
      - destruct e; cbn; discriminate.
      - intros (p & path & b & H & _). discriminate. }
  cbv beta iota zeta.
  destruct (storage_Client env) as [cl' | e] eqn:Hcl.
  2:{ split.
      - cbn. discriminate.
      - intros (p & path & b & _ & H & _). discriminate. }
  cbv beta iota zeta.
  destruct (gcp_bucket_path env) as [path |] eqn:Hpath.
  2:{ split.
      - cbn. discriminate.
      - intros (p & path & b & _ & _ & H & _). discriminate. }
  destruct (_parse_url path) as [bucket_name file_path] eqn:Hparse.
  cbv beta iota zeta. cbn [fst client].
  destruct (get_bucket cl' bucket_name) as [bucket | e] eqn:Hget.
  - split.
    + intros H. cbn in H. inversion H; subst. exists project_id, path, bucket.
      rewrite Hparse. cbn [fst]. now rewrite Hget.
    + intros (p & path' & b & _ & Hc & _). inversion Hc. reflexivity.
  - split.
    + destruct e; cbn; discriminate.
    + intros (p & path' & b & _ & Hc & Hp & Hg).
      inversion Hc; subst. inversion Hp; subst.
      rewrite Hparse in Hg. cbn [fst] in Hg. congruence.
Qed.

(** *** What [list] returns *)

Lemma blob_url_is_valid (bucket_name : string) (blob : Blob) :
  Validators.remote_uri_is_valid (blob_url bucket_name blob)
  = Validators.Valid (blob_url bucket_name blob).
Proof.
  unfold Validators.remote_uri_is_valid, blob_url.
  change ("gs://" +:+ bucket_name +:+ "/" +:+ blob_name blob)
    with ("gs" +:+ "://" +:+ (bucket_name +:+ "/" +:+ blob_name blob)).
  now rewrite PyStrFacts.contains_append.
Qed.

(** X11. [list] invents nothing: every URL it returns is the URL of a
    blob that the listing of the bucket gave, under the bucket name of
    the request; the name of that blob contains [include] when one is
    given, and does not contain [exclude] when only that one is given;
    and the URL passes the remote URI validator of the settings
    unchanged. *)
Theorem list_urls_are_sound (self : GoogleHelper) (url : string)
    (include exclude : option string) (sink : Loguru.Sink) :
  match fst (list self url include exclude sink) with
  | Ok urls =>
      forall u, u ∈ urls ->
        Validators.remote_uri_is_valid u = Validators.Valid u /\
        exists bucket blobs blob,
          get_bucket (client self) (fst (_parse_url url)) = Ok bucket /\
          list_blobs bucket (snd (_parse_url url)) = Ok blobs /\
          blob ∈ blobs /\
          u = blob_url (fst (_parse_url url)) blob /\
          (forall inc, include = Some inc ->
             PyStr.contains inc (blob_name blob) = true) /\
          (forall exc, include = None -> exclude = Some exc ->
             PyStr.contains exc (blob_name blob) = false)
  | Raise _ => True
  end.
Proof.
  unfold list.
  destruct (_parse_url url) as [bucket_name prefix]. cbn [fst snd].
  unfold bind, try_except, call, logger, ret. cbv beta iota zeta.
  destruct (get_bucket (client self) bucket_name) as [bucket | e] eqn:Hget.
  2:{ destruct e; cbn; try exact I; intros u Hu; inversion Hu. }
  destruct (list_blobs bucket prefix) as [blobs | e] eqn:Hlist.
  2:{ destruct e; cbn; try exact I; intros u Hu; inversion Hu. }
  cbn [fst]. intros u Hu.
  apply list_elem_of_fmap in Hu. destruct Hu as (blob & -> & Hblob).
  split; [apply blob_url_is_valid |].
  exists bucket, blobs, blob.
  split; [reflexivity |]. split; [exact Hlist |].
  unfold select in Hblob.
  destruct include as [inc |]; [| destruct exclude as [exc |]].
  - apply list_elem_of_filter in Hblob. destruct Hblob as [Hinc Hin].
    repeat split; try assumption.
    + intros inc' H. now inversion H; subst.
    + intros exc' H. discriminate.
  - apply list_elem_of_filter in Hblob. destruct Hblob as [Hexc Hin].
    repeat split; try assumption.
    + intros inc' H. discriminate.
    + intros exc' _ H. now inversion H; subst.
  - repeat split; try assumption.
    + intros inc' H. discriminate.
    + intros exc' _ H. discriminate.
Qed.

(** X18. The scheme is optional: a URL written with a leading ['gs://']
    and the same URL written without it parse to the same bucket and
    path. *)
Theorem parse_url_scheme_optional (url : string) :
  _parse_url ("gs://" +:+ url) = _parse_url url.
Proof.
  unfold _parse_url.
  change ("gs://" +:+ url) with ("" +:+ "gs://" +:+ url).
  now rewrite PyStrFacts.replace_gs_append.
Qed.

End GoogleMore.

(** ** The methods that work on one blob *)

Module GoogleBlobsSpec.
Import Py Google GoogleBlobs.

Section Blobs.

Variable blob_exists : Bucket -> option string -> result bool.
Variable download_to_filename : Bucket -> option string -> string -> result unit.
Variable upload_from_filename : Bucket -> option string -> string -> result unit.
Variable Datetime : Type.
Variable reload_time_created : Bucket -> option string -> result (option Datetime).

(** X8. A positive answer of the helper is a true one: [bucket_exists]
    returns [True] exactly when the lookup of the bucket of the URL
    answers, and [stat] returns [True] exactly when that lookup answers
    and the existence check on the blob says [True]. *)
Theorem positive_answers_are_true (self : GoogleHelper) (url : string)
    (sink : Loguru.Sink) :
  (fst (bucket_exists self url sink) = Ok true <->
   exists bucket, get_bucket (client self) (fst (_parse_url url)) = Ok bucket) /\
  (fst (stat blob_exists self url sink) = Ok true <->
   exists bucket,
     get_bucket (client self) (fst (_parse_url url)) = Ok bucket /\
     blob_exists bucket (snd (_parse_url url)) = Ok true).
Proof.
  unfold bucket_exists, stat.
  destruct (_parse_url url) as [bucket_name file_path]. cbn [fst snd].
  unfold bind, try_except, call, logger, ret. cbv beta iota zeta.
  destruct (get_bucket (client self) bucket_name) as [bucket | e].
  - split.
    + split; [intros _; now exists bucket | reflexivity].
    + destruct (blob_exists bucket file_path) as [[|] | e] eqn:Hex; split.
      * intros _. now exists bucket.
      * reflexivity.
      * discriminate.
      * intros (b & Hb & He). inversion Hb; subst. congruence.
      * destruct e; discriminate.
      * intros (b & Hb & He). inversion Hb; subst. congruence.
  - split; split.
    + destruct e; discriminate.
    + intros [b Hb]. discriminate.
    + destruct e; discriminate.
    + intros (b & Hb & _). discriminate.
Qed.

(** X9. No cloud error leaves the helper: whatever the client, the
    bucket and the blob operations do, an exception that [bucket_exists],
    [list], [stat], [download], [upload] or [get_creation_date] raises is
    neither [NotFound] nor any other [GoogleCloudError]. *)
Theorem no_cloud_error_escapes (self : GoogleHelper) (url other : string)
    (include exclude : option string) (sink : Loguru.Sink) :
  (forall e, fst (bucket_exists self url sink) = Raise e -> is_cloud_error e = false) /\
  (forall e, fst (list self url include exclude sink) = Raise e ->
     is_cloud_error e = false) /\
  (forall e, fst (stat blob_exists self url sink) = Raise e ->
     is_cloud_error e = false) /\
  (forall e, fst (download download_to_filename self url other sink) = Raise e ->
     is_cloud_error e = false) /\
  (forall e, fst (upload upload_from_filename self other url sink) = Raise e ->
     is_cloud_error e = false) /\
  (forall e, fst (get_creation_date Datetime reload_time_created self url sink) = Raise e ->
     is_cloud_error e = false).
Proof.
  unfold bucket_exists, list, stat, download, upload, get_creation_date.
  destruct (_parse_url url) as [bucket_name file_path].
  unfold bind, try_except, call, logger, ret. cbv beta iota zeta.
  destruct (get_bucket (client self) bucket_name) as [bucket | e0].
  - repeat split; intros e.
    + discriminate.
    + destruct (list_blobs bucket file_path) as [blobs | e1];
        [discriminate | destruct e1; cbn; intros H; inversion H; reflexivity].
    + destruct (blob_exists bucket file_path) as [b | e1];
        [discriminate | destruct e1; cbn; intros H; inversion H; reflexivity].
    + destruct (download_to_filename bucket file_path other) as [[] | e1];
        [discriminate | destruct e1; cbn; intros H; inversion H; reflexivity].
    + destruct (upload_from_filename bucket file_path other) as [[] | e1];
        [discriminate | destruct e1; cbn; intros H; inversion H; reflexivity].
    + destruct (reload_time_created bucket file_path) as [d | e1];
        [discriminate | destruct e1; cbn; intros H; inversion H; reflexivity].
  - repeat split; intros e; destruct e0; cbn; intros H; inversion H; reflexivity.
Qed.

(** X10. A failed transfer is silent. [download] and [upload] return
    [None] both when the transfer was made and when the bucket lookup or
    the transfer raised a cloud error; the two cases differ only in the
    one line logged: DEBUG for a transfer made, ERROR for one that
    failed. *)
Theorem failed_transfer_is_silent (self : GoogleHelper) (url local : string)
    (sink : Loguru.Sink) :
  let bucket_name := fst (_parse_url url) in
  let file_path := snd (_parse_url url) in
  (forall bucket,
     get_bucket (client self) bucket_name = Ok bucket ->
     download_to_filename bucket file_path local = Ok tt ->
     download download_to_filename self url local sink =
     (Ok tt, sink ++ [ {| Loguru.level := Loguru.DEBUG;
                          Loguru.text := "downloaded " +:+ url +:+ " to " +:+ local |} ])) /\
  (forall bucket,
     get_bucket (client self) bucket_name = Ok bucket ->
     upload_from_filename bucket file_path local = Ok tt ->
     upload upload_from_filename self local url sink =
     (Ok tt, sink ++ [ {| Loguru.level := Loguru.DEBUG;
                          Loguru.text := "file uploaded: " +:+ url |} ])) /\
  (forall e,
     is_cloud_error e = true ->
     get_bucket (client self) bucket_name = Raise e \/
     (exists bucket, get_bucket (client self) bucket_name = Ok bucket /\
                     download_to_filename bucket file_path local = Raise e) ->
     exists msg,
       download download_to_filename self url local sink =
       (Ok tt, sink ++ [ {| Loguru.level := Loguru.ERROR; Loguru.text := msg |} ])) /\
  (forall e,
     is_cloud_error e = true ->
     get_bucket (client self) bucket_name = Raise e \/
     (exists bucket, get_bucket (client self) bucket_name = Ok bucket /\
                     upload_from_filename bucket file_path local = Raise e) ->
     exists msg,
       upload upload_from_filename self local url sink =
       (Ok tt, sink ++ [ {| Loguru.level := Loguru.ERROR; Loguru.text := msg |} ])).
Proof.
  cbv zeta. unfold download, upload.
  destruct (_parse_url url) as [bucket_name file_path]. cbn [fst snd].
  unfold bind, try_except, call, logger, ret, Loguru.emit.
  cbv beta iota zeta.
  split; [| split; [| split]].
  - intros bucket -> ->. reflexivity.
  - intros bucket -> ->. reflexivity.
  - intros e He [-> | (bucket & -> & ->)];
      destruct e; try discriminate; eexists; reflexivity.
  - intros e He [-> | (bucket & -> & ->)];
      destruct e; try discriminate; eexists; reflexivity.
Qed.

End Blobs.

End GoogleBlobsSpec.

(** ** More on merging settings *)

Module ConfigMore.
Import Py Config SettingsShape.

(** The names that count as set after the loop over [names]. *)
Lemma merge_fields_set (names : list string) (self incoming : BaseModel) :
  well_formed incoming ->
  exists merged,
    merge_fields names self incoming = Ok merged /\
    forall f,
      f ∈ model_fields_set merged <->
      f ∈ model_fields_set self \/ (f ∈ names /\ f ∈ model_fields_set incoming).
Proof.
  intros Hwf. revert self.
  induction names as [|n names IH]; intros self.
  - exists self. split; [reflexivity |]. intros f. split; [now left |].
    intros [H | [H _]]; [exact H | inversion H].
  - cbn [merge_fields]. case_bool_decide as Hset.
    + destruct (Hwf n Hset) as [v Hv]. unfold getattr. rewrite Hv.
      destruct (IH (setattr self n v)) as (merged & Hm & Hs).
      exists merged. split; [exact Hm |]. intros f.
      rewrite Hs. unfold setattr. cbn [model_fields_set].
      rewrite elem_of_union, elem_of_singleton, elem_of_cons.
      split.
      * intros [[-> | H] | [H1 H2]]; [right | left | right]; auto.
      * intros [H | [[-> | H1] H2]]; auto.
    + destruct (IH self) as (merged & Hm & Hs).
      exists merged. split; [exact Hm |]. intros f.
      rewrite Hs, elem_of_cons. split.
      * intros [H | [H1 H2]]; auto.
      * intros [H | [[-> | H1] H2]]; auto. contradiction.
Qed.

(** The merged object, by its attributes and by the names set on it. *)
Lemma merge_model_result (self incoming : BaseModel) :
  well_formed incoming ->
  exists merged,
    merge_model self incoming = Ok merged /\
    (forall f,
       attrs merged !! f =
       if decide (f ∈ model_fields /\ f ∈ model_fields_set incoming)
       then attrs incoming !! f else attrs self !! f) /\
    (forall f,
       f ∈ model_fields_set merged <->
       f ∈ model_fields_set self \/
       (f ∈ model_fields /\ f ∈ model_fields_set incoming)).
Proof.
  intros Hwf. unfold merge_model.
  destruct (ConfigSpec.merge_fields_frame model_fields self incoming Hwf)
    as (merged & Hm & Hattrs).
  destruct (merge_fields_set model_fields self incoming Hwf)
    as (merged' & Hm' & Hset).
  assert (merged' = merged) as -> by congruence.
  now exists merged.
Qed.

Lemma model_eq (a b : BaseModel) :
  (forall f, attrs a !! f = attrs b !! f) ->
  (forall f, f ∈ model_fields_set a <-> f ∈ model_fields_set b) ->
  a = b.
Proof.
  destruct a as [aa sa], b as [ab sb]. cbn. intros Ha Hs.
  f_equal; [now apply map_eq | now apply set_eq].
Qed.

(** X12. A model on which no field of [Settings] was set explicitly
    changes nothing: [merge_model] returns the settings as they were,
    whatever values the model holds (the [None] defaults of an empty
    environment or command line never overwrite a setting). *)
Theorem merge_model_nothing_set (self incoming : BaseModel) :
  (forall f, f ∈ model_fields -> f ∉ model_fields_set incoming) ->
  merge_model self incoming = Ok self.
Proof.
  unfold merge_model. generalize model_fields as names.
  induction names as [|n names IH]; intros Hnone; [reflexivity |].
  cbn [merge_fields]. case_bool_decide as Hset.
  - exfalso. apply (Hnone n); [now left | exact Hset].
  - apply IH. intros f Hf. apply Hnone. now right.
Qed.

(** The theorem at the default settings and an environment model with
    nothing set. *)
Lemma merge_model_nothing_set_witness :
  merge_model Settings_new MoreSamples.env_nothing_set = Ok Settings_new.
Proof.
  apply (merge_model_nothing_set Settings_new MoreSamples.env_nothing_set).
  intros f _. apply not_elem_of_empty.
Defined.

(** X13. Merging the same model a second time changes nothing: the
    settings after two merges of [incoming] are the settings after
    one. *)
Theorem merge_model_idempotent (self incoming : BaseModel) :
  well_formed incoming ->
  exists merged,
    merge_model self incoming = Ok merged /\
    merge_model merged incoming = Ok merged.
Proof.
  intros Hwf.
  destruct (merge_model_result self incoming Hwf) as (merged & Hm & Ha & Hs).
  destruct (merge_model_result merged incoming Hwf) as (again & Hm2 & Ha2 & Hs2).
  exists merged. split; [exact Hm |]. rewrite Hm2. f_equal.
  apply model_eq.
  - intros f. rewrite Ha2, Ha. now case_decide.
  - intros f. rewrite Hs2, Hs. tauto.
Qed.

(** The theorem at the default settings and a CLI model that sets
    [step] and [pool]. *)
Lemma merge_model_idempotent_witness :
  exists merged,
    merge_model Settings_new Samples.cli_step_and_pool = Ok merged /\
    merge_model merged Samples.cli_step_and_pool = Ok merged.
Proof.
  apply (merge_model_idempotent Settings_new Samples.cli_step_and_pool).
  intros name Hname. unfold Samples.cli_step_and_pool in *. simpl in *.
  apply elem_of_union in Hname. destruct Hname as [Hname | Hname];
    apply elem_of_singleton in Hname; subst name; vm_compute; eauto.
Defined.

(** X14. The later merge wins. After merging [first] and then [second]
    into the settings, a field of [Settings] holds the value of [second]
    if [second] set it, else the value of [first] if [first] set it, else
    the value it had: the models are to be merged from the lowest
    precedence to the highest. *)
Theorem merge_model_later_wins (self first second : BaseModel) :
  well_formed first ->
  well_formed second ->
  exists after_first after_second,
    merge_model self first = Ok after_first /\
    merge_model after_first second = Ok after_second /\
    forall f, f ∈ model_fields ->
      attrs after_second !! f =
      if decide (f ∈ model_fields_set second) then attrs second !! f
      else if decide (f ∈ model_fields_set first) then attrs first !! f
      else attrs self !! f.
Proof.
  intros Hwf1 Hwf2.
  destruct (merge_model_result self first Hwf1) as (s1 & Hm1 & Ha1 & _).
  destruct (merge_model_result s1 second Hwf2) as (s2 & Hm2 & Ha2 & _).
  exists s1, s2. split; [exact Hm1 |]. split; [exact Hm2 |].
  intros f Hf. rewrite Ha2, Ha1.
  destruct (decide (f ∈ model_fields_set second));
    destruct (decide (f ∈ model_fields_set first));
    repeat case_decide; try reflexivity; tauto.
Qed.

Lemma yaml_sample_well_formed : well_formed MoreSamples.yaml_pool_and_level.
Proof.
  intros name Hname. unfold MoreSamples.yaml_pool_and_level in *. simpl in *.
  apply elem_of_union in Hname. destruct Hname as [Hname | Hname];
    apply elem_of_singleton in Hname; subst name; vm_compute; eauto.
Defined.

Lemma cli_sample_well_formed : well_formed Samples.cli_step_and_pool.
Proof.
  intros name Hname. unfold Samples.cli_step_and_pool in *. simpl in *.
  apply elem_of_union in Hname. destruct Hname as [Hname | Hname];
    apply elem_of_singleton in Hname; subst name; vm_compute; eauto.
Defined.

(** The theorem at the default settings, a YAML model that gives [pool]
    and [log_level], and then a CLI model that gives [step] and [pool]. *)
Lemma merge_model_later_wins_witness :
  exists after_first after_second,
    merge_model Settings_new MoreSamples.yaml_pool_and_level = Ok after_first /\
    merge_model after_first Samples.cli_step_and_pool = Ok after_second /\
    forall f, f ∈ model_fields ->
      attrs after_second !! f =
      if decide (f ∈ model_fields_set Samples.cli_step_and_pool)
      then attrs Samples.cli_step_and_pool !! f
      else if decide (f ∈ model_fields_set MoreSamples.yaml_pool_and_level)
      then attrs MoreSamples.yaml_pool_and_level !! f
      else attrs Settings_new !! f.
Proof.
  exact (merge_model_later_wins Settings_new MoreSamples.yaml_pool_and_level
           Samples.cli_step_and_pool yaml_sample_well_formed cli_sample_well_formed).
Defined.

(** On the samples: [pool] is given by both models and the CLI value,
    merged last, stays; [log_level] comes from the YAML model, [step]
    from the CLI model, [work_dir] keeps its default. *)
Example merge_yaml_then_cli :
  match merge_model Settings_new MoreSamples.yaml_pool_and_level with
  | Ok after_yaml =>
      match merge_model after_yaml Samples.cli_step_and_pool with
      | Ok merged =>
          attrs merged !! "pool" = Some (VInt 8) /\
          attrs merged !! "log_level" = Some (VStr "DEBUG") /\
          attrs merged !! "step" = Some (VStr "go") /\
          attrs merged !! "work_dir" = Some (VPath "./output")
      | Raise _ => False
      end
  | Raise _ => False
  end.
Proof. vm_compute. repeat split. Qed.

Lemma default_settings_shape : has_exactly_the_fields Settings_new.
Proof.
  intros f. unfold Settings_new, model_fields. cbn [attrs].
  rewrite !lookup_insert, lookup_singleton.
  rewrite !elem_of_cons, elem_of_nil.
  repeat case_decide; subst; split; intros Hx;
    try (now eauto 10); try (destruct Hx as [? Hx]; discriminate);
    try (exfalso; repeat (destruct Hx as [Hx | Hx]; [congruence |]); exact Hx).
Defined.

(** X15. Merging keeps the shape of the settings. When the settings hold
    a value for each field of [Settings] and have no other attribute (as
    [Settings()] does), so do the merged settings: no field is left
    without a value and no attribute of the incoming model that is not a
    field of [Settings] is taken over. The names that count as set on the
    merged settings are those set before and the [Settings] fields set on
    the incoming model. *)
Theorem merge_model_keeps_shape (self incoming : BaseModel) :
  well_formed incoming ->
  has_exactly_the_fields self ->
  exists merged,
    merge_model self incoming = Ok merged /\
    has_exactly_the_fields merged /\
    forall f,
      f ∈ model_fields_set merged <->
      f ∈ model_fields_set self \/
      (f ∈ model_fields /\ f ∈ model_fields_set incoming).
Proof.
  intros Hwf Hshape.
  destruct (merge_model_result self incoming Hwf) as (merged & Hm & Ha & Hs).
  exists merged. split; [exact Hm |]. split; [| exact Hs].
  intros f. rewrite Ha. case_decide as Hf.
  - destruct Hf as [Hfield Hset]. split; [now intros _ | intros _; now apply Hwf].
  - apply Hshape.
Qed.

(** The theorem at the default settings and a CLI model that sets
    [step] and [pool]. *)
Lemma merge_model_keeps_shape_witness :
  exists merged,
    merge_model Settings_new Samples.cli_step_and_pool = Ok merged /\
    has_exactly_the_fields merged /\
    forall f,
      f ∈ model_fields_set merged <->
      f ∈ model_fields_set Settings_new \/
      (f ∈ model_fields /\ f ∈ model_fields_set Samples.cli_step_and_pool).
Proof.
  exact (merge_model_keeps_shape Settings_new Samples.cli_step_and_pool
           cli_sample_well_formed default_settings_shape).
Defined.

End ConfigMore.

(** ** The Homologues step *)

Module HomologuesSpec.
Import Models Py GO Homologues.

Section Process.

Variable ftp_download : string -> ResourceStage -> result TaskManifest.
Variable create_folder : string -> result unit.
Variable check_path_command : string -> string -> result string.
Variable extract_fields_from_json : string -> Conf -> Output -> string -> M string.
Variable compute_checksums : list TaskManifest -> list TaskManifest.

(** The loop appends and never removes: when it ends normally it has
    appended one record per species, in order, each marked COMPLETED;
    when it raises it has appended the records of fewer species. *)
Lemma fetch_all_appends (conf : Conf) (output : Output) (uri_release jq_cmd : string)
    (species_list : list string) (resources : list TaskManifest) (sink : Loguru.Sink) :
  exists fetched,
    snd (fst (fetch_all ftp_download extract_fields_from_json conf output
                uri_release jq_cmd species_list resources sink))
    = resources ++ fetched /\
    match fst (fst (fetch_all ftp_download extract_fields_from_json conf output
                      uri_release jq_cmd species_list resources sink)) with
    | Ok _ => Forall2 marked_completed species_list fetched
    | Raise _ => length fetched < length species_list
    end.
Proof.
  revert resources sink.
  induction species_list as [|species rest IH]; intros resources sink.
  - exists []. cbn. split; [now rewrite app_nil_r | constructor].
  - cbn [fetch_all].
    destruct (download_species ftp_download uri_release (release conf)
                (staging_dir output) (staging_dir output) species)
      as [download_manifest | e].
    2:{ exists []. cbn. split; [now rewrite app_nil_r | lia]. }
    destruct (extract_fields_from_json (destination_path download_manifest)
                conf output jq_cmd _) as [[extracted | e] sink1].
    2:{ exists []. cbn. split; [now rewrite app_nil_r | lia]. }
    match goal with
    | |- context [fetch_all _ _ _ _ _ _ rest (resources ++ [?r]) ?s] =>
        destruct (IH (resources ++ [r]) s) as (fetched & Hres & Hout);
        exists (r :: fetched)
    end.
    split.
    + rewrite Hres. now rewrite <- app_assoc.
    + destruct (fst (fst (fetch_all _ _ _ _ _ _ rest _ _))).
      * constructor; [now split | exact Hout].
      * cbn. lia.
Qed.

Lemma marked_completed_all (species_list : list string) (fetched : list TaskManifest) :
  Forall2 marked_completed species_list fetched ->
  are_all_resources_complete fetched = true.
Proof.
  induction 1 as [|species r ss rs [Hst _] _ IH]; [reflexivity |].
  unfold are_all_resources_complete in *. cbn [forallb].
  apply andb_true_intro. split; [| exact IH].
  apply bool_decide_eq_true. rewrite Hst. now left.
Qed.

(** X16. The Homologues step never reports a failure of its own. When
    [process] returns, the step is COMPLETED with its closing message,
    whatever its status was before and whatever status the downloads
    reported: the resources of the step are the old ones followed by one
    record per configured species, in order, each overwritten to
    COMPLETED with the message of its species, all handed to the checksum
    pass; on the new records [are_all_resources_complete] is true. *)
Theorem process_always_completes (conf : Conf) (output : Output) (cmd_conf : CmdConf)
    (svc : ManifestService) (sink : Loguru.Sink) :
  match process ftp_download create_folder check_path_command
          extract_fields_from_json compute_checksums conf output cmd_conf svc sink with
  | (Ok _, svc', _) =>
      exists step0 fetched,
        steps svc !! "Homologues" = Some step0 /\
        steps svc' !! "Homologues" =
        Some {| resources := compute_checksums (resources step0 ++ fetched);
                status_completion := COMPLETED;
                msg_completion := "The step has completed its execution" |} /\
        Forall2 marked_completed (conf_resources conf) fetched /\
        are_all_resources_complete fetched = true
  | (Raise _, _, _) => True
  end.
Proof.
  unfold process.
  destruct (create_folder _) as [[] | e]; [| exact I].
  destruct (check_path_command "jq" (cmd_jq cmd_conf)) as [jq_cmd | e]; [| exact I].
  unfold get_step, Homologues.step_name.
  destruct (steps svc !! "Homologues") as [step0 |] eqn:Hget; [| exact I].
  match goal with
  | |- context [fetch_all _ _ ?c ?o ?u ?j ?l ?r ?s] =>
      destruct (fetch_all_appends c o u j l r s) as (fetched & Hres & Hout);
      destruct (fetch_all ftp_download extract_fields_from_json c o u j l r s)
        as [[[[] | e] resources'] sink']
  end; [| exact I].
  cbn in Hres, Hout. subst resources'.
  exists step0, fetched. split; [reflexivity |].
  split; [unfold store; cbn [steps]; apply lookup_insert_eq |].
  split; [exact Hout |]. now apply (marked_completed_all (conf_resources conf)).
Qed.



End Process.

(** On the samples. With downloads that all report FAILED and a step
    that was FAILED before, a run that returns leaves the step COMPLETED
    and both records COMPLETED. With an extraction that raises on the
    second of three species, the run raises, the step keeps its FAILED
    status and message, and holds the record of the first species. *)
Example homologues_on_samples :
  let run extract species :=
    Homologues.process MoreSamples.ftp_reports_failed (fun _ => Ok tt)
      (fun _ yaml_cmd => Ok yaml_cmd) extract (fun records => records)
      (MoreSamples.homologues_conf species)
      {| prod_dir := "output"; staging_dir := "staging" |}
      {| cmd_jq := "/usr/bin/jq" |}
      MoreSamples.failed_homologues_service [] in
  (exists svc sink,
     run (fun input_file _ _ _ => ret (input_file +:+ ".tsv"))
         ["homo_sapiens"; "canis_lupus_familiaris"] = (Ok tt, svc, sink) /\
     (status_completion <$> steps svc !! "Homologues") = Some COMPLETED /\
     (map task_status <$> (resources <$> steps svc !! "Homologues"))
     = Some [COMPLETED; COMPLETED]) /\
  (exists svc sink,
     run MoreSamples.extract_but_mouse
         ["homo_sapiens"; "mus_musculus"; "canis_lupus_familiaris"]
     = (Raise (OtherError "broken pipe"), svc, sink) /\
     (status_completion <$> steps svc !! "Homologues") = Some FAILED /\
     (map message <$> (resources <$> steps svc !! "Homologues"))
     = Some ["Homologue 'homo_sapiens' data"]).
Proof.
  cbv zeta. split; eexists _, _; (split; [vm_compute; reflexivity |]);
    split; vm_compute; reflexivity.
Qed.

End HomologuesSpec.
